(** * The attestation-run pipeline of witness: [cmd/run.go] and [options/run.go]

    A shallow embedding of [runRun] and [storeInArchivist] and the
    properties of the run pipeline: signer cardinality, the local write,
    the two publishing steps and the chunked upload.

    The Go code talks to collaborators that live outside the repository
    (go-witness, rekor, grpc, the archivist stub, the file system).  They
    are gathered in a record [World] of oracles; the pipeline itself is a
    computation in a state-and-error monad whose state records every call
    made to a collaborator, the bytes written to the output sink and the
    frames delivered on the upload stream. *)

From Stdlib Require Import ZArith List String Ascii Bool Lia.
From Stdlib.Strings Require Import Byte.
Import ListNotations.

Local Open Scope Z_scope.
Local Open Scope list_scope.

Infix "+++" := String.append (right associativity, at level 60).

(** ** Go values: [int], slices, [error] *)

Module Go.

(** [int] is a 64-bit two's complement integer on the platforms witness
    is built for; additions wrap around. *)
Definition intSize : Z := 64.
Definition maxInt : Z := 2 ^ (intSize - 1) - 1.
Definition minInt : Z := - 2 ^ (intSize - 1).

Definition wrapInt (z : Z) : Z :=
  (z + 2 ^ (intSize - 1)) mod 2 ^ intSize - 2 ^ (intSize - 1).

Definition intAdd (a b : Z) : Z := wrapInt (a + b).

(** [len(s)] *)
Definition len {A : Type} (s : list A) : Z := Z.of_nat (List.length s).

(** The first [n] elements, and what is left after them, counted with
    an [int]. *)
Fixpoint takeZ {A : Type} (n : Z) (s : list A) : list A :=
  match s with
  | [] => []
  | x :: r => if n <=? 0 then [] else x :: takeZ (n - 1) r
  end.

Fixpoint dropZ {A : Type} (n : Z) (s : list A) : list A :=
  match s with
  | [] => []
  | x :: r => if n <=? 0 then s else dropZ (n - 1) r
  end.

(** [s[lo:]] and [s[lo:hi]]; [None] is the run-time panic
    "slice bounds out of range".  The capacity of the slice is taken to
    be its length. *)
Definition sliceFrom {A : Type} (s : list A) (lo : Z) : option (list A) :=
  if (0 <=? lo) && (lo <=? len s) then Some (dropZ lo s) else None.

Definition slice {A : Type} (s : list A) (lo hi : Z) : option (list A) :=
  if (0 <=? lo) && (lo <=? hi) && (hi <=? len s)
  then Some (takeZ (hi - lo) (dropZ lo s))
  else None.

(** [error]: a message, or a message wrapping a cause
    ([fmt.Errorf] with the verb [%w]). *)
Inductive error : Type :=
| errorString (s : string)
| wrapError (msg : string) (err : error).

(** [err.Error()] *)
Fixpoint Error (e : error) : string :=
  match e with
  | errorString s => s
  | wrapError msg err => msg +++ ": " +++ Error err
  end.

(** The result of a call [v, err := f(...)]. *)
Inductive result (A : Type) : Type :=
| Success (a : A)
| Failure (err : error).
Arguments Success {A} a.
Arguments Failure {A} err.

Definition newline : string := String (ascii_of_nat 10) EmptyString.

End Go.
Import Go.

(** ** Package [options] *)

Module options.

(** One configured source of a signing identity (a key file, a key
    service, ...). *)
Definition SignerSource : Type := string.

(** [KeyOptions] is declared elsewhere in the package; the pipeline only
    hands it to [loadSigners]. *)
Definition KeyOptions : Type := list SignerSource.

(** [ArchivistOptions] declares [Enable] and [Url]; [runRun] and
    [storeInArchivist] read a field [Server], carried here next to the
    declared ones. *)
Record ArchivistOptions : Type := mkArchivistOptions {
  Enable : bool;
  Url : string;
  Server : string
}.

(** [RunOptions]; [RekorServer] is read by [runRun] and carried next to
    the declared fields. *)
Record RunOptions : Type := mkRunOptions {
  ro_KeyOptions : KeyOptions;
  ro_ArchivistOptions : ArchivistOptions;
  WorkingDir : string;
  Attestations : list string;
  OutFilePath : string;
  StepName : string;
  Tracing : bool;
  TimestampServers : list string;
  RekorServer : string
}.

End options.
Import options.

(** ** Package [cmd] *)

Module cmd.

(** *** Collaborators *)

(** [cryptoutil.Verifier] and [cryptoutil.Signer], as far as the
    pipeline uses them. *)
Record Verifier : Type := mkVerifier {
  Bytes : result (list byte)
}.

Record Signer : Type := mkSigner {
  KeyID : string;
  GetVerifier : result Verifier
}.

(** [dsse.Envelope] and [witness.RunResult] *)
Record Envelope : Type := mkEnvelope {
  Payload : list byte;
  PayloadType : string;
  Signatures : list (string * list byte)
}.

Record RunResult : Type := mkRunResult {
  SignedEnvelope : Envelope
}.

(** The output file: [Write] returns the number of bytes written and an
    error. *)
Record File : Type := mkFile {
  Write : list byte -> Z * option error
}.

(** [rekor.Client]: [StoreArtifact] returns the entry's location. *)
Record RekorClient : Type := mkRekorClient {
  StoreArtifact : list byte -> list byte -> result string
}.

(** [archivist.Chunk], [archivist.StoreResponse] and the
    client-streaming session: what [Send] and [CloseAndRecv] answer may
    depend on the frames delivered so far. *)
Record Chunk : Type := mkChunk {
  chunk : list byte
}.

Record StoreResponse : Type := mkStoreResponse {
  GetGitoid : string
}.

Record Stream : Type := mkStream {
  Send : list Chunk -> Chunk -> option error;
  CloseAndRecv : list Chunk -> result StoreResponse
}.

(** [grpc.ClientConn] with the collector client on it: [Store] returns a
    stream, [nil] ([None]) or not, and an error, [nil] or not. *)
Record ClientConn : Type := mkClientConn {
  Store : option Stream * option error
}.

(** What lies outside [runRun] and [storeInArchivist]: the construction
    of a signer from a source, [loadOutfile] (a function of this package
    that is not among the sources, taken as it is called: a path in, a
    file or an error out), [witness.Run] with the step name, the signer,
    the tracing flag, the command, the attestors and the working
    directory, [json.Marshal], [rekor.New] and [grpc.Dial]. *)
Record World : Type := mkWorld {
  newSigner : SignerSource -> result Signer;
  loadOutfile : string -> result File;
  witnessRun : string -> Signer -> bool -> list string -> list string ->
               string -> result RunResult;
  jsonMarshal : Envelope -> result (list byte);
  rekorNew : string -> result RekorClient;
  grpcDial : string -> result ClientConn
}.

(** *** The state of a run *)

Inductive Level : Type := LvlError | LvlInfo.

Inductive Event : Type :=
| EvLog (lvl : Level) (msg : string)
| EvLoadOutfile (path : string)
| EvWitnessRun (stepName : string) (signer : Signer) (tracing : bool)
               (command attestors : list string) (workingDir : string)
| EvWrite (p : list byte)
| EvClose
| EvRekorNew (server : string)
| EvStoreArtifact (artifact pubKey : list byte)
| EvDial (server : string)
| EvStore
| EvSend (c : Chunk)
| EvCloseAndRecv.

Record State : Type := mkState {
  trace : list Event;      (* calls made, oldest first *)
  sink : list byte;        (* bytes written to the output sink *)
  sent : list Chunk        (* frames delivered on the open stream *)
}.

Definition initial : State := mkState [] [] [].

Definition record (e : Event) (st : State) : State :=
  mkState (trace st ++ [e]) (sink st) (sent st).

(** *** The monad: state, returned errors, panics *)

Inductive outcome (A : Type) : Type :=
| Ok (a : A)
| Err (err : error)
| Panic (msg : string)
| OutOfFuel.
Arguments Ok {A} a.
Arguments Err {A} err.
Arguments Panic {A} msg.
Arguments OutOfFuel {A}.

Definition M (A : Type) : Type := State -> outcome A * State.

Definition ret {A : Type} (a : A) : M A := fun st => (Ok a, st).

Definition bind {A B : Type} (m : M A) (k : A -> M B) : M B :=
  fun st =>
    match m st with
    | (Ok a, st') => k a st'
    | (Err e, st') => (Err e, st')
    | (Panic msg, st') => (Panic msg, st')
    | (OutOfFuel, st') => (OutOfFuel, st')
    end.

(** [return err] with a non-nil [err] *)
Definition fail {A : Type} (e : error) : M A := fun st => (Err e, st).

Definition panic {A : Type} (msg : string) : M A := fun st => (Panic msg, st).

Definition emit (e : Event) : M unit := fun st => (Ok tt, record e st).

(** [defer d]: [d] runs when the body is left, whatever way; what it
    returns is dropped. *)
Definition defer {A : Type} (d : M unit) (body : M A) : M A :=
  fun st => let (r, st') := body st in (r, snd (d st')).

(** [v, err := f(...); if err != nil { return wrap(err) }] *)
Definition check {A : Type} (r : result A) (wrap : error -> error) : M A :=
  match r with
  | Success a => ret a
  | Failure e => fail (wrap e)
  end.

Definition nilDeref : string :=
  "invalid memory address or nil pointer dereference".
Definition outOfRange : string := "slice bounds out of range".
Definition indexOutOfRange : string := "index out of range".

Definition orPanic {A : Type} (o : option A) (msg : string) : M A :=
  match o with
  | Some a => ret a
  | None => panic msg
  end.

(** [v, err := f(...); if err != nil { return wrap(err) }] where [f] is
    itself a function of this package. *)
Definition mapErr {A : Type} (m : M A) (wrap : error -> error) : M A :=
  fun st =>
    match m st with
    | (Err e, st') => (Err (wrap e), st')
    | r => r
    end.

Notation "x <- c1 ;; c2" := (bind c1 (fun x => c2))
  (at level 61, c1 at next level, right associativity).
Notation "' pat <- c1 ;; c2" := (bind c1 (fun x => match x with pat => c2 end))
  (at level 61, pat pattern, c1 at next level, right associativity).
Notation "c1 ;; c2" := (bind c1 (fun _ => c2))
  (at level 61, right associativity).

(** [for _, x := range l { body }] *)
Fixpoint forEach {A : Type} (l : list A) (body : A -> M unit) : M unit :=
  match l with
  | [] => ret tt
  | x :: r => body x ;; forEach r body
  end.

(** *** Calls to the collaborators *)

Definition logError (msg : string) : M unit := emit (EvLog LvlError msg).
Definition logInfof (msg : string) : M unit := emit (EvLog LvlInfo msg).

(** [out.Write(p)]: the bytes that were written reach the sink. *)
Definition fileWrite (out : File) (p : list byte) : M (Z * option error) :=
  fun st =>
    let (n, err) := Write out p in
    (Ok (n, err),
     mkState (trace st ++ [EvWrite p]) (sink st ++ takeZ n p) (sent st)).

Definition fileClose (out : File) : M unit := emit EvClose.

(** [client.Store(ctx)]: a new session, nothing delivered on it yet. *)
Definition clientStore (client : ClientConn)
  : M (option Stream * option error) :=
  fun st => (Ok (Store client), mkState (trace st ++ [EvStore]) (sink st) []).

(** [stream.Send(chunk)]; a method call on a nil stream panics. *)
Definition streamSend (stream : option Stream) (c : Chunk)
  : M (option error) :=
  fun st =>
    match stream with
    | None => (Panic nilDeref, st)
    | Some s =>
        match Send s (sent st) c with
        | None =>
            (Ok None,
             mkState (trace st ++ [EvSend c]) (sink st) (sent st ++ [c]))
        | Some e => (Ok (Some e), record (EvSend c) st)
        end
    end.

(** [stream.CloseAndRecv()] *)
Definition streamCloseAndRecv (stream : option Stream)
  : M (result StoreResponse) :=
  fun st =>
    match stream with
    | None => (Panic nilDeref, st)
    | Some s => (Ok (CloseAndRecv s (sent st)), record EvCloseAndRecv st)
    end.

(** *** [loadSigners] *)

(** Modelled from the spec: [loadSigners] is not among the sources.  It
    attempts to construct a signer from each configured source
    independently and collects all construction failures rather than
    stopping at the first; it has no side effect beyond reading the
    configured key material. *)
Fixpoint loadSigners (w : World) (ko : KeyOptions)
  : list Signer * list error :=
  match ko with
  | [] => ([], [])
  | src :: rest =>
      let (signers, errors) := loadSigners w rest in
      match newSigner w src with
      | Success s => (s :: signers, errors)
      | Failure e => (signers, e :: errors)
      end
  end.

(** *** [storeInArchivist] *)

Definition chunkSize : Z := 64 * 1024.

(** The loop
    [for curr := 0; curr < size; curr += chunkSize { ... }],
    entered with the current value of [curr].  [fuel] bounds the number
    of times the condition is evaluated.  The one [Chunk] object is
    refilled for every frame; [Send] has serialized it when it returns,
    so a frame is what the object held at the call. *)
Fixpoint sendChunks (fuel : nat) (stream : option Stream)
         (signedBytes : list byte) (size curr : Z) : M unit :=
  match fuel with
  | O => fun st => (OutOfFuel, st)
  | S fuel' =>
      if curr <? size then
        chunkBytes <-
          (if intAdd curr chunkSize >=? size
           then orPanic (sliceFrom signedBytes curr) outOfRange
           else orPanic (slice signedBytes curr (intAdd curr chunkSize))
                        outOfRange) ;;
        err <- streamSend stream (mkChunk chunkBytes) ;;
        match err with
        | Some e => fail e
        | None =>
            sendChunks fuel' stream signedBytes size (intAdd curr chunkSize)
        end
      else ret tt
  end.

(** The cancellation context [ctx] plays no part in what follows and is
    left out.  The error of [client.Store] is assigned and not read. *)
Definition storeInArchivist (w : World) (opts : ArchivistOptions)
           (signedBytes : list byte) : M string :=
  emit (EvDial (Server opts)) ;;
  conn <- check (grpcDial w (Server opts)) (fun err => err) ;;
  let client := conn in
  let size := len signedBytes in
  '(stream, _) <- clientStore client ;;
  sendChunks (S (List.length signedBytes)) stream signedBytes size 0 ;;
  resp <- streamCloseAndRecv stream ;;
  match resp with
  | Failure err => fail err
  | Success resp => ret (GetGitoid resp)
  end.

(** *** [runRun] *)

(** The two publishing steps of [runRun]: the block
    [if rekorServer != "" { ... }] and the block
    [if ro.ArchivistOptions.Server != "" { ... }]. *)
Definition publishRekor (w : World) (ro : RunOptions) (signer : Signer)
           (signedBytes : list byte) : M unit :=
  let rekorServer := RekorServer ro in
  if negb (String.eqb rekorServer "") then
    verifier <- check (GetVerifier signer)
                      (wrapError "failed to get verifier from signer") ;;
    pubKeyBytes <- check (Bytes verifier)
                         (wrapError "failed to get bytes from verifier") ;;
    emit (EvRekorNew rekorServer) ;;
    rc <- check (rekorNew w rekorServer)
                (wrapError "failed to get initialize Rekor client") ;;
    emit (EvStoreArtifact signedBytes pubKeyBytes) ;;
    location <- check (StoreArtifact rc signedBytes pubKeyBytes)
                      (wrapError "failed to store artifact in rekor") ;;
    logInfof ("Rekor entry added at " +++ rekorServer +++ location
              +++ newline)
  else ret tt.

Definition publishArchivist (w : World) (ro : RunOptions)
           (signedBytes : list byte) : M unit :=
  if negb (String.eqb (Server (ro_ArchivistOptions ro)) "") then
    gitoid <- mapErr (storeInArchivist w (ro_ArchivistOptions ro)
                                       signedBytes)
                     (wrapError "failed to store artifact in archivist") ;;
    logInfof ("Stored in archivist as " +++ gitoid +++ newline)
  else ret tt.

(** [runRun] from [out, err := loadOutfile(ro.OutFilePath)] to its end:
    what the run does once [signer := signers[0]] is fixed. *)
Definition runRunWith (w : World) (ro : RunOptions) (args : list string)
           (signer : Signer) : M unit :=
  emit (EvLoadOutfile (OutFilePath ro)) ;;
  out <- check (loadOutfile w (OutFilePath ro))
               (wrapError "failed to open out file") ;;
  defer (fileClose out) (
    emit (EvWitnessRun (StepName ro) signer (Tracing ro) args
                       (Attestations ro) (WorkingDir ro)) ;;
    result <- check (witnessRun w (StepName ro) signer (Tracing ro) args
                                (Attestations ro) (WorkingDir ro))
                    (fun err => err) ;;
    signedBytes <- check (jsonMarshal w (SignedEnvelope result))
                         (wrapError "failed to marshal envelope") ;;
    '(_, werr) <- fileWrite out signedBytes ;;
    match werr with
    | Some err =>
        fail (wrapError "failed to write envelope to out file" err)
    | None =>
        publishRekor w ro signer signedBytes ;;
        publishArchivist w ro signedBytes
    end).

Definition runRun (w : World) (ro : RunOptions) (args : list string)
  : M unit :=
  let (signers, errors) := loadSigners w (ro_KeyOptions ro) in
  if len errors >? 0 then
    forEach errors (fun err => logError (Error err)) ;;
    fail (errorString "failed to load signers")
  else if len signers >? 1 then
    logError "only one signer is supported" ;;
    fail (errorString "only one signer is supported")
  else if len signers =? 0 then
    logError "no signers found" ;;
    fail (errorString "no signers found")
  else
    signer <- orPanic (nth_error signers 0) indexOutOfRange ;;
    runRunWith w ro args signer.

End cmd.
Import cmd.

(** ** The command and its flags *)

(** The flag set of a command, as far as registration goes: a flag has a
    name, a one-letter shorthand or none, a usage line and a default; a
    name or a shorthand that is registered twice, or a shorthand of more
    than one letter, makes the registration panic ([None]). *)
Module pflag.

Inductive Value : Type :=
| StringValue (s : string)
| BoolValue (b : bool)
| StringSliceValue (l : list string).

Record Flag : Type := mkFlag {
  Name : string;
  Shorthand : string;
  DefValue : Value;
  Usage : string
}.

Definition FlagSet : Type := list Flag.

Definition hasName (fs : FlagSet) (name : string) : bool :=
  existsb (fun g => String.eqb (Name g) name) fs.

Definition hasShorthand (fs : FlagSet) (c : string) : bool :=
  existsb (fun g => String.eqb (Shorthand g) c) fs.

Definition AddFlag (fs : FlagSet) (f : Flag) : option FlagSet :=
  if hasName fs (Name f) then None
  else if String.eqb (Shorthand f) "" then Some (fs ++ [f])
  else if (1 <? String.length (Shorthand f))%nat then None
  else if hasShorthand fs (Shorthand f) then None
  else Some (fs ++ [f]).

End pflag.
Import pflag.

(** [ArchivistOptions.AddFlags]: the two flags are registered and the
    fields they are bound to take the defaults; [Server] is bound to no
    flag. *)
Definition ArchivistOptions_AddFlags (o : ArchivistOptions) (fs : FlagSet)
  : option (ArchivistOptions * FlagSet) :=
  match AddFlag fs (mkFlag "enable-archivist" "" (BoolValue false)
                           "Use Archivist to store or retrieve attestations")
  with
  | None => None
  | Some fs =>
      match AddFlag fs
                    (mkFlag "archivist-server" ""
                            (StringValue "https://archivist.testifysec.io")
                            "URL of the Archivist server to store or retrieve attestations")
      with
      | None => None
      | Some fs =>
          Some (mkArchivistOptions false "https://archivist.testifysec.io"
                                   (Server o), fs)
      end
  end.

(** [RunOptions.AddFlags]; [keyAddFlags] stands for
    [KeyOptions.AddFlags], which is declared elsewhere. *)
Definition RunOptions_AddFlags
           (keyAddFlags : KeyOptions -> FlagSet -> option (KeyOptions * FlagSet))
           (ro : RunOptions) (fs : FlagSet) : option (RunOptions * FlagSet) :=
  match keyAddFlags (ro_KeyOptions ro) fs with
  | None => None
  | Some (ko, fs) =>
  match ArchivistOptions_AddFlags (ro_ArchivistOptions ro) fs with
  | None => None
  | Some (ao, fs) =>
  match AddFlag fs (mkFlag "workingdir" "d" (StringValue "")
                           "Directory from which commands will run") with
  | None => None
  | Some fs =>
  match AddFlag fs (mkFlag "attestations" "a"
                           (StringSliceValue ["environment"%string;
                                              "git"%string])
                           "Attestations to record") with
  | None => None
  | Some fs =>
  match AddFlag fs (mkFlag "outfile" "o" (StringValue "")
                           "File to which to write signed data.  Defaults to stdout")
  with
  | None => None
  | Some fs =>
  match AddFlag fs (mkFlag "step" "s" (StringValue "")
                           "Name of the step being run") with
  | None => None
  | Some fs =>
  match AddFlag fs (mkFlag "trace" "" (BoolValue false)
                           "Enable tracing for the command") with
  | None => None
  | Some fs =>
  match AddFlag fs (mkFlag "timestamp-servers" "" (StringSliceValue [])
                           "Timestamp Authority Servers to use when signing envelope")
  with
  | None => None
  | Some fs =>
      Some (mkRunOptions ko ao "" ["environment"%string; "git"%string] ""
                         "" false [] (RekorServer ro),
            fs)
  end end end end end end end end.

(** [cobra.Command], as far as [RunCmd] fills it. *)
Record Command : Type := mkCommand {
  Use : string;
  Short : string;
  SilenceErrors : bool;
  SilenceUsage : bool;
  RunE : World -> RunOptions -> list string -> M unit;
  Flags : FlagSet
}.

(** [RunCmd]: the command, and the options [o] as the registration of
    the flags leaves them; [RunE] runs [runRun] on the options it finds
    when it is called. *)
Definition RunCmd
           (keyAddFlags : KeyOptions -> FlagSet -> option (KeyOptions * FlagSet))
  : option (Command * RunOptions) :=
  let o := mkRunOptions [] (mkArchivistOptions false "" "") "" [] "" ""
                        false [] "" in
  match RunOptions_AddFlags keyAddFlags o [] with
  | None => None
  | Some (o, fs) =>
      Some (mkCommand "run [cmd]"
                      "Runs the provided command and records attestations about the execution"
                      true true
                      (fun w o args => runRun w o args)
                      fs,
            o)
  end.

(** The names and the shorthands that [RunOptions.AddFlags] registers
    itself. *)
Definition runFlagNames : list string :=
  ["enable-archivist"; "archivist-server"; "workingdir"; "attestations";
   "outfile"; "step"; "trace"; "timestamp-servers"]%string.

Definition runFlagShorthands : list string := ["d"; "a"; "o"; "s"]%string.

(** No flag of [fs] takes a name or a shorthand of the run command. *)
Definition clashFree (fs : FlagSet) : bool :=
  forallb (fun name => negb (hasName fs name)) runFlagNames
  && forallb (fun c => negb (hasShorthand fs c)) runFlagShorthands.

(** ** Concrete collaborators, for running the pipeline *)

Module Demo.

Local Open Scope string_scope.

Definition hello : list byte :=
  [x68; x65; x6c; x6c; x6f; x20; x77; x6f; x72; x6c; x64].

Definition signerA : Signer :=
  mkSigner "key-a" (Success (mkVerifier (Success [x01; x02]))).

Definition signerB : Signer :=
  mkSigner "key-b" (Success (mkVerifier (Success [x03]))).

Definition envelope : Envelope :=
  mkEnvelope hello "application/vnd.in-toto+json" [("key-a", [xff])].

(** A file that takes every byte it is given. *)
Definition file : File := mkFile (fun p => (len p, None)).

Definition gitoid : string := "gitoid:blob:sha256:00".

(** A stream on which every frame is delivered. *)
Definition stream : Stream :=
  mkStream (fun _ _ => None) (fun _ => Success (mkStoreResponse gitoid)).

(** A stream that refuses every frame. *)
Definition deafStream : Stream :=
  mkStream (fun _ _ => Some (errorString "EOF"))
           (fun _ => Failure (errorString "stream closed")).

Definition rekorDown : RekorClient :=
  mkRekorClient (fun _ _ => Failure (errorString "rekor unavailable")).

Definition rekorUp : RekorClient :=
  mkRekorClient (fun _ _ => Success "/api/v1/log/entries/1").

(** Sources named "a" and "b" give a signer; every other source fails
    to construct.  The path "/nowhere/out" cannot be opened. *)
Definition world (rc : RekorClient) (conn : ClientConn) : World :=
  mkWorld
    (fun src =>
       if String.eqb src "a" then Success signerA
       else if String.eqb src "b" then Success signerB
       else Failure (errorString ("cannot load " +++ src)))
    (fun path =>
       if String.eqb path "/nowhere/out"
       then Failure (errorString "failed to create output file")
       else Success file)
    (fun _ _ _ _ _ _ => Success (mkRunResult envelope))
    (fun env => Success (Payload env))
    (fun _ => Success rc)
    (fun _ => Success conn).

Definition conn : ClientConn := mkClientConn (Some stream, None).

(** A connection on which the session cannot be opened. *)
Definition noStream : ClientConn :=
  mkClientConn (None, Some (errorString "no route to host")).

(** A connection whose session opens with an error and refuses every
    frame. *)
Definition deafConn : ClientConn :=
  mkClientConn (Some deafStream, Some (errorString "no route to host")).

(** One source, which gives a signer. *)
Definition oneLoads : KeyOptions := ["a"].

Definition command : list string := ["make"; "build"].

(** Three sources: two fail to construct, one gives a signer. *)
Definition twoFailOneLoads : KeyOptions := ["x"; "a"; "y"].

(** One source, which fails to construct. *)
Definition oneFails : KeyOptions := ["x"].

(** Three sources: one fails to construct, two give a signer. *)
Definition oneFailsTwoLoad : KeyOptions := ["a"; "x"; "b"].

Definition archivist : ArchivistOptions :=
  mkArchivistOptions false "https://archivist.testifysec.io"
                     "archivist:8080".

Definition options (ko : KeyOptions) (out rekor archivist : string)
  : RunOptions :=
  mkRunOptions ko (mkArchivistOptions false "https://archivist.testifysec.io"
                                      archivist)
               "" ["environment"; "git"] out "build" false [] rekor.

Definition healthy : World := world rekorUp conn.

(** The transparency log refuses every submission. *)
Definition logDown : World := world rekorDown conn.

(** Run options with no publishing endpoint. *)
Definition quiet (ko : KeyOptions) : RunOptions := options ko "" "" "".

(** Run options with both publishing endpoints. *)
Definition publishing : RunOptions :=
  options oneLoads "" "https://rekor" "archivist:8080".

(** The artifact store cannot be dialed. *)
Definition offline : World :=
  mkWorld (newSigner healthy) (loadOutfile healthy) (witnessRun healthy)
          (jsonMarshal healthy) (rekorNew healthy)
          (fun _ => Failure (errorString "bad target")).

(** The command fails. *)
Definition failingRun : World :=
  mkWorld (newSigner healthy) (loadOutfile healthy)
          (fun _ _ _ _ _ _ => Failure (errorString "exit status 1"))
          (jsonMarshal healthy) (rekorNew healthy) (grpcDial healthy).

(** The envelope cannot be marshalled. *)
Definition unmarshallable : World :=
  mkWorld (newSigner healthy) (loadOutfile healthy) (witnessRun healthy)
          (fun _ => Failure (errorString "unsupported type"))
          (rekorNew healthy) (grpcDial healthy).

(** A file that takes three bytes and then fails. *)
Definition fullFile : File :=
  mkFile (fun _ => (3, Some (errorString "no space left on device"))).

Definition fullDisk : World :=
  mkWorld (newSigner healthy) (fun _ => Success fullFile)
          (witnessRun healthy) (jsonMarshal healthy) (rekorNew healthy)
          (grpcDial healthy).

(** The session cannot be opened: [Store] returns no stream. *)
Definition noSession : World := world rekorUp noStream.

(** Run options with the artifact store as the only endpoint. *)
Definition storing : RunOptions := options oneLoads "" "" "archivist:8080".

(** A signer that cannot give its verifier, whatever the source. *)
Definition signerC : Signer :=
  mkSigner "key-c" (Failure (errorString "no public key")).

Definition keyless : World :=
  mkWorld (fun _ => Success signerC) (loadOutfile healthy)
          (witnessRun healthy) (jsonMarshal healthy) (rekorNew healthy)
          (grpcDial healthy).

(** Key options that register one flag, "key" with the shorthand "k". *)
Definition keyFlags (ko : KeyOptions) (fs : FlagSet)
  : option (KeyOptions * FlagSet) :=
  match AddFlag fs (mkFlag "key" "k" (StringValue "")
                           "Path to the signing key") with
  | Some fs => Some (ko, fs)
  | None => None
  end.

(** Key options that take the shorthand "s" for a flag of their own. *)
Definition clashingKeyFlags (ko : KeyOptions) (fs : FlagSet)
  : option (KeyOptions * FlagSet) :=
  match AddFlag fs (mkFlag "spiffe-socket" "s" (StringValue "")
                           "Path to the SPIFFE socket") with
  | Some fs => Some (ko, fs)
  | None => None
  end.

End Demo.

(** ** What is observed of a run *)

(** The frames of a payload, in the words of the specification:
    consecutive frames of at most [chunkSize] bytes, in the original byte
    order, the last one holding the remainder; no frame for the empty
    payload. *)
Fixpoint frames (fuel : nat) (payload : list byte) : list (list byte) :=
  match fuel with
  | O => []
  | S fuel' =>
      match payload with
      | [] => []
      | _ :: _ =>
          takeZ chunkSize payload :: frames fuel' (dropZ chunkSize payload)
      end
  end.

Definition partition (payload : list byte) : list (list byte) :=
  frames (List.length payload) payload.

(** The frames that an upload has delivered when it ends. *)
Definition framesSent (w : World) (opts : ArchivistOptions)
           (payload : list byte) (st : State) : list (list byte) :=
  map chunk (sent (snd (storeInArchivist w opts payload st))).

(** The smallest number of frames of [chunkSize] bytes that hold [L]
    bytes. *)
Definition ceilDiv (L : Z) : Z := (L + chunkSize - 1) / chunkSize.

(** Calls that reach the network. *)
Definition isNetworkCall (e : Event) : bool :=
  match e with
  | EvRekorNew _ | EvStoreArtifact _ _ | EvDial _ | EvStore | EvSend _
  | EvCloseAndRecv => true
  | _ => false
  end.

(** Calls of the attestation/execution collaborator [witness.Run]. *)
Definition isWitnessRun (e : Event) : bool :=
  match e with
  | EvWitnessRun _ _ _ _ _ _ => true
  | _ => false
  end.

(** Calls made for the artifact store. *)
Definition isArchivistCall (e : Event) : bool :=
  match e with
  | EvDial _ | EvStore | EvSend _ | EvCloseAndRecv => true
  | _ => false
  end.

Definition archivistAttempted (t : list Event) : bool :=
  existsb isArchivistCall t.

(** What the transparency log answers when it is asked: [None] when no
    endpoint is configured, otherwise the location of the entry or the
    first failure among getting the verifier, its bytes, the client and
    the submission. *)
Definition rekorStep (w : World) (ro : RunOptions) (signer : Signer)
           (signedBytes : list byte) : option (result string) :=
  if String.eqb (RekorServer ro) "" then None
  else Some
    match GetVerifier signer with
    | Failure e => Failure e
    | Success verifier =>
        match Bytes verifier with
        | Failure e => Failure e
        | Success pubKeyBytes =>
            match rekorNew w (RekorServer ro) with
            | Failure e => Failure e
            | Success rc => StoreArtifact rc signedBytes pubKeyBytes
            end
        end
    end.

Definition rekorFails (w : World) (ro : RunOptions) (signer : Signer)
           (signedBytes : list byte) : bool :=
  match rekorStep w ro signer signedBytes with
  | Some (Failure _) => true
  | _ => false
  end.

(** The run gets as far as a successful local write: exactly one signer
    and no construction error, the output file opens, [witness.Run]
    returns a result, its envelope marshals to [signedBytes], and [Write]
    takes all of [signedBytes] without an error. *)
Definition writesEnvelope (w : World) (ro : RunOptions) (args : list string)
           (signer : Signer) (signedBytes : list byte) : Prop :=
  exists out result,
    loadSigners w (ro_KeyOptions ro) = ([signer], [])
    /\ loadOutfile w (OutFilePath ro) = Success out
    /\ witnessRun w (StepName ro) signer (Tracing ro) args (Attestations ro)
                  (WorkingDir ro) = Success result
    /\ jsonMarshal w (SignedEnvelope result) = Success signedBytes
    /\ Write out signedBytes = (len signedBytes, None).

(** The calls of a run up to and including the local write. *)
Definition callsToWrite (ro : RunOptions) (args : list string)
           (signer : Signer) (signedBytes : list byte) : list Event :=
  [EvLoadOutfile (OutFilePath ro);
   EvWitnessRun (StepName ro) signer (Tracing ro) args (Attestations ro)
                (WorkingDir ro);
   EvWrite signedBytes].

(** The same run options with other artifact-store options. *)
Definition withArchivist (ro : RunOptions) (a : ArchivistOptions)
  : RunOptions :=
  mkRunOptions (ro_KeyOptions ro) a (WorkingDir ro) (Attestations ro)
               (OutFilePath ro) (StepName ro) (Tracing ro)
               (TimestampServers ro) (RekorServer ro).

(** The log entries of the construction errors. *)
Definition loggedErrors (errors : list error) : list Event :=
  map (fun err => EvLog LvlError (Error err)) errors.

(** Sending frames one after the other, up to the first one that the
    stream refuses: what the upload loop comes to once the payload is
    cut. *)
Fixpoint sendAll (stream : option Stream) (fs : list (list byte)) : M unit :=
  match fs with
  | [] => ret tt
  | f :: r =>
      err <- streamSend stream (mkChunk f) ;;
      match err with
      | Some e => fail e
      | None => sendAll stream r
      end
  end.

(** The [Send] calls for a list of frames. *)
Definition sends (fs : list (list byte)) : list Event :=
  map EvSend (map mkChunk fs).

Definition isSend (e : Event) : bool :=
  match e with EvSend _ => true | _ => false end.

Definition isClose (e : Event) : bool :=
  match e with EvClose => true | _ => false end.

Definition isWrite (e : Event) : bool :=
  match e with EvWrite _ => true | _ => false end.

Definition isCloseAndRecv (e : Event) : bool :=
  match e with EvCloseAndRecv => true | _ => false end.

(** What the publishing steps may do: call the network and log. *)
Definition isPublishCall (e : Event) : bool :=
  match e with
  | EvLog _ _ => true
  | _ => isNetworkCall e
  end.

(** The run gets as far as opening its output file: one signer, no
    construction error, and [loadOutfile] returns a file. *)
Definition opensFile (w : World) (ro : RunOptions) : bool :=
  match loadSigners w (ro_KeyOptions ro) with
  | ([_], []) =>
      match loadOutfile w (OutFilePath ro) with
      | Success _ => true
      | Failure _ => false
      end
  | _ => false
  end.

(** The ways a run can go, each with what it returns and the state it
    leaves: a construction error, no signer, several signers, no output
    file, a failed execution, a failed serialization, a failed write, or
    a write followed by the publishing steps. *)
Inductive RunPath (w : World) (ro : RunOptions) (args : list string)
  : outcome unit * State -> Prop :=
| PathLoadFailed signers e errors :
    loadSigners w (ro_KeyOptions ro) = (signers, e :: errors) ->
    RunPath w ro args
      (Err (errorString "failed to load signers"),
       mkState (loggedErrors (e :: errors)) [] [])
| PathNoSigner :
    loadSigners w (ro_KeyOptions ro) = ([], []) ->
    RunPath w ro args
      (Err (errorString "no signers found"),
       mkState [EvLog LvlError "no signers found"] [] [])
| PathManySigners s s' r :
    loadSigners w (ro_KeyOptions ro) = (s :: s' :: r, []) ->
    RunPath w ro args
      (Err (errorString "only one signer is supported"),
       mkState [EvLog LvlError "only one signer is supported"] [] [])
| PathNoFile signer e :
    loadSigners w (ro_KeyOptions ro) = ([signer], []) ->
    loadOutfile w (OutFilePath ro) = Failure e ->
    RunPath w ro args
      (Err (wrapError "failed to open out file" e),
       mkState [EvLoadOutfile (OutFilePath ro)] [] [])
| PathRunFailed signer out e :
    loadSigners w (ro_KeyOptions ro) = ([signer], []) ->
    loadOutfile w (OutFilePath ro) = Success out ->
    witnessRun w (StepName ro) signer (Tracing ro) args (Attestations ro)
               (WorkingDir ro) = Failure e ->
    RunPath w ro args
      (Err e,
       mkState [EvLoadOutfile (OutFilePath ro);
                EvWitnessRun (StepName ro) signer (Tracing ro) args
                             (Attestations ro) (WorkingDir ro);
                EvClose] [] [])
| PathMarshalFailed signer out result e :
    loadSigners w (ro_KeyOptions ro) = ([signer], []) ->
    loadOutfile w (OutFilePath ro) = Success out ->
    witnessRun w (StepName ro) signer (Tracing ro) args (Attestations ro)
               (WorkingDir ro) = Success result ->
    jsonMarshal w (SignedEnvelope result) = Failure e ->
    RunPath w ro args
      (Err (wrapError "failed to marshal envelope" e),
       mkState [EvLoadOutfile (OutFilePath ro);
                EvWitnessRun (StepName ro) signer (Tracing ro) args
                             (Attestations ro) (WorkingDir ro);
                EvClose] [] [])
| PathWriteFailed signer out result signedBytes n e :
    loadSigners w (ro_KeyOptions ro) = ([signer], []) ->
    loadOutfile w (OutFilePath ro) = Success out ->
    witnessRun w (StepName ro) signer (Tracing ro) args (Attestations ro)
               (WorkingDir ro) = Success result ->
    jsonMarshal w (SignedEnvelope result) = Success signedBytes ->
    Write out signedBytes = (n, Some e) ->
    RunPath w ro args
      (Err (wrapError "failed to write envelope to out file" e),
       mkState (callsToWrite ro args signer signedBytes ++ [EvClose])
               (takeZ n signedBytes) [])
| PathPublished signer out result signedBytes n r pubs delivered :
    loadSigners w (ro_KeyOptions ro) = ([signer], []) ->
    loadOutfile w (OutFilePath ro) = Success out ->
    witnessRun w (StepName ro) signer (Tracing ro) args (Attestations ro)
               (WorkingDir ro) = Success result ->
    jsonMarshal w (SignedEnvelope result) = Success signedBytes ->
    Write out signedBytes = (n, None) ->
    forallb isPublishCall pubs = true ->
    RunPath w ro args
      (r,
       mkState (callsToWrite ro args signer signedBytes ++ pubs ++ [EvClose])
               (takeZ n signedBytes) delivered).

(** A state with the calls of [d] added to those of [st]. *)
Definition extend (st d : State) : State :=
  mkState (trace st ++ trace d) (sink st) (sent d).

(** The state with its past forgotten: only the open stream counts. *)
Definition blank (st : State) : State := mkState [] [] (sent st).

(** ** Go integers and slices *)

Section GoLemmas.

Context {A : Type}.
Implicit Types (s : list A) (n lo hi : Z).

Lemma len_nonneg s : 0 <= len s.
Proof. unfold len. lia. Qed.

Lemma len_nil : len (@nil A) = 0.
Proof. reflexivity. Qed.

Lemma len_cons (x : A) s : len (x :: s) = len s + 1.
Proof. unfold len. cbn [List.length]. lia. Qed.

Lemma len_app s1 s2 : len (s1 ++ s2) = len s1 + len s2.
Proof. unfold len. rewrite length_app. lia. Qed.

Lemma takeZ_nonpos n s : n <= 0 -> takeZ n s = [].
Proof.
  intros Hn. destruct s as [|x r]; cbn [takeZ]; [reflexivity|].
  destruct (Z.leb_spec n 0); [reflexivity | lia].
Qed.

Lemma dropZ_nonpos n s : n <= 0 -> dropZ n s = s.
Proof.
  intros Hn. destruct s as [|x r]; cbn [dropZ]; [reflexivity|].
  destruct (Z.leb_spec n 0); [reflexivity | lia].
Qed.

Lemma takeZ_dropZ n s : takeZ n s ++ dropZ n s = s.
Proof.
  revert n. induction s as [|x r IH]; intros n; cbn [takeZ dropZ].
  - reflexivity.
  - destruct (n <=? 0); [reflexivity|]. cbn [app]. now rewrite IH.
Qed.

Lemma len_takeZ n s : 0 <= n -> len (takeZ n s) = Z.min n (len s).
Proof.
  revert n. induction s as [|x r IH]; intros n Hn; cbn [takeZ].
  - rewrite len_nil. lia.
  - destruct (Z.leb_spec n 0).
    + rewrite len_nil, len_cons. pose proof (len_nonneg r). lia.
    + rewrite !len_cons, IH by lia. lia.
Qed.

Lemma len_dropZ n s : 0 <= n -> len (dropZ n s) = Z.max 0 (len s - n).
Proof.
  revert n. induction s as [|x r IH]; intros n Hn; cbn [dropZ].
  - rewrite len_nil. lia.
  - destruct (Z.leb_spec n 0).
    + rewrite len_cons. pose proof (len_nonneg r). lia.
    + rewrite IH, len_cons by lia. pose proof (len_nonneg r). lia.
Qed.

Lemma takeZ_all n s : len s <= n -> takeZ n s = s.
Proof.
  revert n. induction s as [|x r IH]; intros n Hn; cbn [takeZ].
  - reflexivity.
  - rewrite len_cons in Hn. pose proof (len_nonneg r).
    destruct (Z.leb_spec n 0); [lia|]. rewrite IH by lia. reflexivity.
Qed.

Lemma dropZ_all n s : len s <= n -> dropZ n s = [].
Proof.
  revert n. induction s as [|x r IH]; intros n Hn; cbn [dropZ].
  - reflexivity.
  - rewrite len_cons in Hn. pose proof (len_nonneg r).
    destruct (Z.leb_spec n 0); [lia|]. apply IH. lia.
Qed.

Lemma dropZ_dropZ a b s :
  0 <= a -> 0 <= b -> dropZ a (dropZ b s) = dropZ (a + b) s.
Proof.
  revert a b. induction s as [|x r IH]; intros a b Ha Hb.
  - reflexivity.
  - cbn [dropZ]. destruct (Z.leb_spec b 0).
    + replace (a + b) with a by lia. reflexivity.
    + destruct (Z.leb_spec (a + b) 0); [lia|].
      rewrite IH by lia. f_equal. lia.
Qed.

Lemma dropZ_nil_len n s : 0 <= n -> dropZ n s = [] -> len s <= n.
Proof.
  intros Hn H. pose proof (len_dropZ n s Hn) as L.
  rewrite H, len_nil in L. lia.
Qed.

Lemma sliceFrom_ok s lo :
  0 <= lo <= len s -> sliceFrom s lo = Some (dropZ lo s).
Proof.
  intros [H1 H2]. unfold sliceFrom.
  destruct (Z.leb_spec 0 lo); [|lia].
  destruct (Z.leb_spec lo (len s)); [|lia]. reflexivity.
Qed.

Lemma slice_ok s lo hi :
  0 <= lo -> lo <= hi -> hi <= len s ->
  slice s lo hi = Some (takeZ (hi - lo) (dropZ lo s)).
Proof.
  intros H1 H2 H3. unfold slice.
  destruct (Z.leb_spec 0 lo); [|lia].
  destruct (Z.leb_spec lo hi); [|lia].
  destruct (Z.leb_spec hi (len s)); [|lia]. reflexivity.
Qed.

Lemma slice_some s lo hi r :
  slice s lo hi = Some r -> 0 <= lo /\ lo <= hi /\ hi <= len s.
Proof.
  unfold slice.
  destruct (Z.leb_spec 0 lo); [|discriminate].
  destruct (Z.leb_spec lo hi); [|discriminate].
  destruct (Z.leb_spec hi (len s)); [|discriminate]. lia.
Qed.

End GoLemmas.

Lemma wrapInt_range z : minInt <= wrapInt z <= maxInt.
Proof.
  unfold wrapInt, minInt, maxInt, intSize.
  change (2 ^ (64 - 1)) with 9223372036854775808.
  change (2 ^ 64) with 18446744073709551616.
  pose proof (Z.mod_pos_bound (z + 9223372036854775808) 18446744073709551616).
  lia.
Qed.

Lemma wrapInt_small z : minInt <= z <= maxInt -> wrapInt z = z.
Proof.
  unfold wrapInt, minInt, maxInt, intSize.
  change (2 ^ (64 - 1)) with 9223372036854775808.
  change (2 ^ 64) with 18446744073709551616.
  intros H. rewrite Z.mod_small by lia. lia.
Qed.

Lemma chunkSize_eq : chunkSize = 65536.
Proof. reflexivity. Qed.

Lemma maxInt_eq : maxInt = 9223372036854775807.
Proof. reflexivity. Qed.

(** An addition whose result does not lie below its first operand did
    not wrap. *)
Lemma intAdd_chunk_monotone curr :
  0 <= curr -> curr <= intAdd curr chunkSize ->
  intAdd curr chunkSize = curr + chunkSize.
Proof.
  intros H0 H. unfold intAdd in *.
  pose proof (wrapInt_range (curr + chunkSize)) as R.
  rewrite maxInt_eq in R.
  destruct (Z_le_gt_dec (curr + chunkSize) maxInt) as [Hle|Hgt].
  - apply wrapInt_small. rewrite chunkSize_eq in *. unfold minInt, intSize.
    change (2 ^ (64 - 1)) with 9223372036854775808. lia.
  - exfalso. revert H R. unfold wrapInt, intSize.
    rewrite maxInt_eq in Hgt. rewrite chunkSize_eq in *.
    change (2 ^ (64 - 1)) with 9223372036854775808.
    change (2 ^ 64) with 18446744073709551616.
    intros H R.
    pose proof (Z.div_mod (curr + 65536 + 9223372036854775808)
                          18446744073709551616 ltac:(lia)) as D.
    pose proof (Z.mod_pos_bound (curr + 65536 + 9223372036854775808)
                                18446744073709551616 ltac:(lia)) as B.
    assert (1 <= (curr + 65536 + 9223372036854775808) / 18446744073709551616)
      by (apply Z.div_le_lower_bound; lia).
    nia.
Qed.

(** ** The partition into frames *)

Lemma length_dropZ_chunk (x : byte) (r : list byte) :
  (List.length (dropZ chunkSize (x :: r)) <= List.length r)%nat.
Proof.
  pose proof (len_dropZ chunkSize (x :: r)) as L.
  rewrite len_cons, chunkSize_eq in L. unfold len in L.
  rewrite chunkSize_eq. lia.
Qed.

Lemma frames_nil fuel : frames fuel [] = [].
Proof. destruct fuel; reflexivity. Qed.

Lemma frames_fuel f1 : forall f2 l,
  (List.length l <= f1)%nat -> (List.length l <= f2)%nat ->
  frames f1 l = frames f2 l.
Proof.
  induction f1 as [|f1 IH]; intros f2 l H1 H2.
  - destruct l; [|cbn in H1; lia]. now rewrite !frames_nil.
  - destruct l as [|x r]; [now rewrite !frames_nil|].
    destruct f2 as [|f2]; [cbn in H2; lia|].
    cbn [frames]. f_equal.
    pose proof (length_dropZ_chunk x r). cbn [List.length] in H1, H2.
    apply IH; lia.
Qed.

Lemma partition_nil : partition [] = [].
Proof. reflexivity. Qed.

Lemma partition_cons x r :
  partition (x :: r)
  = takeZ chunkSize (x :: r) :: partition (dropZ chunkSize (x :: r)).
Proof.
  unfold partition. cbn [List.length frames]. f_equal.
  apply frames_fuel; [apply length_dropZ_chunk | lia].
Qed.

(** Induction along the partition: from a payload to what is left of it
    after its first frame. *)
Lemma partition_ind (P : list byte -> Prop) :
  P [] ->
  (forall x r, P (dropZ chunkSize (x :: r)) -> P (x :: r)) ->
  forall l, P l.
Proof.
  intros Hnil Hcons l.
  remember (List.length l) as n eqn:Hn. revert l Hn.
  induction n as [n IH] using lt_wf_ind. intros l Hn.
  destruct l as [|x r]; [exact Hnil|].
  apply Hcons. apply (IH (List.length (dropZ chunkSize (x :: r)))).
  - subst n. pose proof (length_dropZ_chunk x r). cbn [List.length]. lia.
  - reflexivity.
Qed.

Lemma partition_concat l : List.concat (partition l) = l.
Proof.
  induction l as [|x r IH] using partition_ind; [reflexivity|].
  rewrite partition_cons. cbn [List.concat]. rewrite IH. apply takeZ_dropZ.
Qed.

Lemma partition_bounds l :
  Forall (fun f => 0 < len f <= chunkSize) (partition l).
Proof.
  induction l as [|x r IH] using partition_ind; [constructor|].
  rewrite partition_cons. constructor; [|exact IH].
  rewrite len_takeZ by (rewrite chunkSize_eq; lia).
  rewrite len_cons. pose proof (len_nonneg r). rewrite chunkSize_eq. lia.
Qed.

Lemma ceilDiv_zero : ceilDiv 0 = 0.
Proof. reflexivity. Qed.

Lemma ceilDiv_small L : 0 < L <= chunkSize -> ceilDiv L = 1.
Proof.
  intros H. unfold ceilDiv. rewrite chunkSize_eq in *.
  symmetry. apply Z.div_unique with (r := L - 1). all: lia.
Qed.

Lemma ceilDiv_step L : chunkSize <= L -> ceilDiv L = ceilDiv (L - chunkSize) + 1.
Proof.
  intros H. unfold ceilDiv. rewrite chunkSize_eq in *.
  replace (L + 65536 - 1) with ((L - 65536 + 65536 - 1) + 1 * 65536) by lia.
  rewrite Z.div_add by lia. reflexivity.
Qed.

Lemma partition_count l : len (partition l) = ceilDiv (len l).
Proof.
  induction l as [|x r IH] using partition_ind; [reflexivity|].
  rewrite partition_cons, len_cons, IH.
  rewrite len_dropZ by (rewrite chunkSize_eq; lia).
  rewrite len_cons. pose proof (len_nonneg r).
  destruct (Z_le_gt_dec chunkSize (len r + 1)) as [Hge|Hlt].
  - rewrite (ceilDiv_step (len r + 1)) by lia.
    rewrite Z.max_r by lia. reflexivity.
  - rewrite Z.max_l by lia. rewrite ceilDiv_zero, ceilDiv_small; lia.
Qed.

(** Frame [k] starts at byte [k * chunkSize] of the payload. *)
Lemma partition_nth l : forall k f,
  nth_error (partition l) k = Some f ->
  f = takeZ chunkSize (dropZ (Z.of_nat k * chunkSize) l).
Proof.
  induction l as [|x r IH] using partition_ind; intros k f Hk.
  - rewrite partition_nil in Hk. destruct k; discriminate.
  - rewrite partition_cons in Hk. destruct k as [|k].
    + cbn [nth_error] in Hk. injection Hk as <-.
      change (Z.of_nat 0 * chunkSize) with 0.
      now rewrite (dropZ_nonpos 0) by lia.
    + cbn [nth_error] in Hk. apply IH in Hk. subst f.
      rewrite dropZ_dropZ by (rewrite chunkSize_eq; lia).
      do 2 f_equal. lia.
Qed.

Lemma partition_empty_inv l : partition l = [] -> l = [].
Proof.
  destruct l as [|x r]; [reflexivity|]. rewrite partition_cons. discriminate.
Qed.

(** The length of the last frame: the remainder, or a full frame when the
    length is a multiple of [chunkSize]. *)
Lemma partition_last l :
  l <> [] ->
  len (last (partition l) [])
  = if len l mod chunkSize =? 0 then chunkSize else len l mod chunkSize.
Proof.
  induction l as [|x r IH] using partition_ind; intros Hne; [congruence|].
  rewrite partition_cons.
  pose proof (len_nonneg r) as Hr.
  destruct (partition (dropZ chunkSize (x :: r))) as [|f fs] eqn:E.
  - apply partition_empty_inv in E.
    apply dropZ_nil_len in E; [|rewrite chunkSize_eq; lia].
    cbn [last]. rewrite takeZ_all by exact E.
    rewrite len_cons in *. rewrite chunkSize_eq in *.
    destruct (Z.eq_dec (len r + 1) 65536) as [Heq|Hneq].
    + rewrite Heq. reflexivity.
    + rewrite Z.mod_small by lia.
      destruct (Z.eqb_spec (len r + 1) 0); [lia | reflexivity].
  - assert (Hd : dropZ chunkSize (x :: r) <> [])
      by (intros Hd; rewrite Hd, partition_nil in E; discriminate).
    change (last (takeZ chunkSize (x :: r) :: f :: fs) [])
      with (last (f :: fs) []).
    rewrite IH by exact Hd.
    assert (Hlen : len (dropZ chunkSize (x :: r)) = len (x :: r) - chunkSize).
    { rewrite len_dropZ by (rewrite chunkSize_eq; lia).
      destruct (Z_le_gt_dec (len (x :: r)) chunkSize) as [Hle|Hgt]; [|lia].
      apply dropZ_all in Hle. congruence. }
    rewrite Hlen.
    replace (len (x :: r) - chunkSize) with (len (x :: r) + (-1) * chunkSize)
      by lia.
    rewrite Z.mod_add by (rewrite chunkSize_eq; lia). reflexivity.
Qed.

(** ** The upload loop *)

(** Linear arithmetic that knows the frame size and the largest [int]. *)
Ltac golia := pose proof chunkSize_eq; pose proof maxInt_eq; lia.

Lemma extend_blank st : extend st (blank st) = st.
Proof. destruct st. unfold extend, blank. cbn. now rewrite app_nil_r. Qed.

Lemma sendChunks_stop fuel stream signedBytes size curr st :
  size <= curr ->
  sendChunks (S fuel) stream signedBytes size curr st = (Ok tt, st).
Proof.
  intros H. cbn [sendChunks].
  destruct (Z.ltb_spec curr size); [lia | reflexivity].
Qed.

(** With the length in the range where [curr + chunkSize] cannot wrap,
    both branches of the loop body cut the same frame. *)
Lemma sendChunks_frame_cut (signedBytes : list byte) curr :
  0 <= curr < len signedBytes ->
  len signedBytes + chunkSize <= maxInt ->
  intAdd curr chunkSize = curr + chunkSize /\
  (if intAdd curr chunkSize >=? len signedBytes
   then orPanic (sliceFrom signedBytes curr) outOfRange
   else orPanic (slice signedBytes curr (intAdd curr chunkSize)) outOfRange)
  = ret (takeZ chunkSize (dropZ curr signedBytes)).
Proof.
  intros Hc Hmax.
  assert (E : intAdd curr chunkSize = curr + chunkSize).
  { unfold intAdd. apply wrapInt_small. rewrite maxInt_eq in *.
    rewrite chunkSize_eq in *. unfold minInt, intSize.
    change (2 ^ (64 - 1)) with 9223372036854775808. lia. }
  split; [exact E|]. rewrite E.
  destruct (Z.geb_spec (curr + chunkSize) (len signedBytes)) as [Hge|Hlt].
  - rewrite sliceFrom_ok by lia. cbn [orPanic]. f_equal.
    symmetry. apply takeZ_all. rewrite len_dropZ by lia. lia.
  - rewrite slice_ok by golia. cbn [orPanic].
    do 2 f_equal. lia.
Qed.

(** On a stream that takes every frame the loop delivers the partition
    of the bytes from [curr] on, in order. *)
Lemma sendChunks_delivers s (signedBytes : list byte) :
  (forall delivered c, Send s delivered c = None) ->
  len signedBytes + chunkSize <= maxInt ->
  forall fuel curr st,
    0 <= curr ->
    (List.length (dropZ curr signedBytes) < fuel)%nat ->
    sendChunks fuel (Some s) signedBytes (len signedBytes) curr st
    = (Ok tt,
       mkState
         (trace st
          ++ map EvSend (map mkChunk (partition (dropZ curr signedBytes))))
         (sink st)
         (sent st ++ map mkChunk (partition (dropZ curr signedBytes)))).
Proof.
  intros Hsend Hmax.
  induction fuel as [|fuel IH]; intros curr st Hcurr Hfuel; [lia|].
  destruct (Z_lt_ge_dec curr (len signedBytes)) as [Hlt|Hge].
  - destruct (sendChunks_frame_cut signedBytes curr) as [Eadd Ecut];
      [lia | exact Hmax |].
    cbn [sendChunks].
    destruct (Z.ltb_spec curr (len signedBytes)); [|lia].
    unfold bind at 1. rewrite Ecut. unfold ret at 1.
    unfold bind at 1. unfold streamSend at 1. rewrite Hsend.
    rewrite Eadd.
    assert (Hcs : 0 <= chunkSize) by (rewrite chunkSize_eq; lia).
    pose proof (dropZ_dropZ chunkSize curr signedBytes Hcs Hcurr) as Hdd.
    replace (chunkSize + curr) with (curr + chunkSize) in Hdd by lia.
    destruct (dropZ curr signedBytes) as [|x r] eqn:Erest.
    { apply dropZ_nil_len in Erest; lia. }
    rewrite IH; [| lia |].
    + rewrite <- Hdd. rewrite (partition_cons x r). cbn [trace sink sent map].
      rewrite <- !app_assoc. reflexivity.
    + rewrite <- Hdd. pose proof (length_dropZ_chunk x r).
      cbn [List.length] in Hfuel. lia.
  - rewrite sendChunks_stop by lia.
    rewrite dropZ_all by lia. rewrite partition_nil. cbn [map].
    rewrite !app_nil_r. now destruct st.
Qed.

(** The loop is left after at most one evaluation of its condition per
    byte that is left, and one more. *)
Lemma sendChunks_total stream (signedBytes : list byte) size :
  forall fuel curr st,
    0 <= curr ->
    (0 < fuel)%nat ->
    size - curr < Z.of_nat fuel ->
    fst (sendChunks fuel stream signedBytes size curr st) <> OutOfFuel.
Proof.
  induction fuel as [|fuel IH]; intros curr st Hcurr Hpos Hfuel.
  - lia.
  - cbn [sendChunks].
    destruct (Z.ltb_spec curr size) as [Hlt|Hge]; [|cbn; discriminate].
    unfold bind at 1.
    destruct (Z.geb_spec (intAdd curr chunkSize) size) as [Hbig|Hsmall].
    + destruct (sliceFrom signedBytes curr) as [c|]; cbn [orPanic];
        [|cbn; discriminate].
      unfold ret at 1, bind at 1, streamSend at 1.
      destruct stream as [s|]; [|cbn; discriminate].
      destruct (Send s (sent st) (mkChunk c)); [cbn; discriminate|].
      apply IH; lia.
    + destruct (slice signedBytes curr (intAdd curr chunkSize)) as [c|] eqn:Es;
        cbn [orPanic]; [|cbn; discriminate].
      apply slice_some in Es. destruct Es as (_ & Hmono & _).
      rewrite (intAdd_chunk_monotone curr Hcurr Hmono) in *.
      unfold ret at 1, bind at 1, streamSend at 1.
      destruct stream as [s|]; [|cbn; discriminate].
      destruct (Send s (sent st) (mkChunk c)); [cbn; discriminate|].
      apply IH; golia.
Qed.

(** The loop reads the frames delivered so far and nothing else of the
    state, and it only adds to the calls made. *)
Lemma sendChunks_extend stream (signedBytes : list byte) size :
  forall fuel curr st,
    sendChunks fuel stream signedBytes size curr st
    = (fst (sendChunks fuel stream signedBytes size curr (blank st)),
       extend st
         (snd (sendChunks fuel stream signedBytes size curr (blank st)))).
Proof.
  induction fuel as [|fuel IH]; intros curr st.
  - cbn [sendChunks fst snd]. now rewrite extend_blank.
  - cbn [sendChunks]. destruct (curr <? size).
    2:{ cbn [ret fst snd]. unfold ret. cbn [fst snd].
        now rewrite extend_blank. }
    assert (Hcut :
      (if intAdd curr chunkSize >=? size
       then orPanic (sliceFrom signedBytes curr) outOfRange
       else orPanic (slice signedBytes curr (intAdd curr chunkSize))
                    outOfRange)
      = orPanic (if intAdd curr chunkSize >=? size
                 then sliceFrom signedBytes curr
                 else slice signedBytes curr (intAdd curr chunkSize))
                outOfRange)
      by (destruct (intAdd curr chunkSize >=? size); reflexivity).
    rewrite Hcut. clear Hcut.
    destruct (if intAdd curr chunkSize >=? size
              then sliceFrom signedBytes curr
              else slice signedBytes curr (intAdd curr chunkSize)) as [c|].
    2:{ unfold bind, orPanic, panic. cbn [fst snd].
        now rewrite extend_blank. }
    unfold bind, orPanic, ret, streamSend.
    destruct stream as [s|].
    2:{ cbn [fst snd]. now rewrite extend_blank. }
    cbn [blank sent].
    destruct (Send s (sent st) (mkChunk c)) as [e|].
    { unfold fail, record, extend. cbn [fst snd trace sink sent app].
      reflexivity. }
    rewrite IH.
    rewrite (IH _ (mkState ([] ++ [EvSend (mkChunk c)]) [] (sent st ++ [mkChunk c]))).
    unfold blank, extend. cbn [fst snd trace sink sent app].
    now rewrite <- app_assoc.
Qed.

(** A frame the stream refuses ends the loop with the stream's error. *)
Lemma sendChunks_err stream (signedBytes : list byte) size e :
  forall fuel curr st,
    fst (sendChunks fuel stream signedBytes size curr st) = Err e ->
    exists s delivered c, stream = Some s /\ Send s delivered c = Some e.
Proof.
  induction fuel as [|fuel IH]; intros curr st; [discriminate|].
  cbn [sendChunks]. destruct (curr <? size); [|discriminate].
  unfold bind.
  destruct (intAdd curr chunkSize >=? size);
    (match goal with
     | |- context [orPanic ?o _] => destruct o as [c|]
     end; cbn [orPanic]; unfold ret, panic; [|discriminate];
     unfold streamSend; destruct stream as [s|]; [|discriminate];
     destruct (Send s (sent st) (mkChunk c)) as [e'|] eqn:Es;
     [ unfold fail; cbn [fst]; intros [= ->]; eauto
     | intros H; apply IH in H; exact H ]).
Qed.

(** On a nil stream the first method call panics. *)
Lemma sendChunks_nil (signedBytes : list byte) :
  forall fuel st,
    (0 < fuel)%nat ->
    signedBytes <> [] ->
    fst (sendChunks fuel None signedBytes (len signedBytes) 0 st)
    = Panic nilDeref.
Proof.
  intros [|fuel] st Hfuel Hne; [lia|].
  cbn [sendChunks].
  assert (0 < len signedBytes).
  { destruct signedBytes; [congruence|]. rewrite len_cons.
    pose proof (len_nonneg signedBytes). lia. }
  destruct (Z.ltb_spec 0 (len signedBytes)); [|lia].
  change (intAdd 0 chunkSize) with 65536.
  unfold bind.
  destruct (Z.geb_spec 65536 (len signedBytes)).
  - rewrite sliceFrom_ok by lia. reflexivity.
  - rewrite slice_ok by lia. reflexivity.
Qed.

(** ** [storeInArchivist] *)

Lemma storeInArchivist_dial_failed w opts signedBytes st e :
  grpcDial w (Server opts) = Failure e ->
  storeInArchivist w opts signedBytes st
  = (Err e, record (EvDial (Server opts)) st).
Proof.
  intros H. unfold storeInArchivist, bind, emit. rewrite H. reflexivity.
Qed.

(** Once the connection is there, the upload is the loop followed by
    [CloseAndRecv], on the stream that [Store] returned. *)
Lemma storeInArchivist_dialed w opts signedBytes st conn :
  grpcDial w (Server opts) = Success conn ->
  storeInArchivist w opts signedBytes st
  = (sendChunks (S (List.length signedBytes)) (fst (Store conn)) signedBytes
                (len signedBytes) 0 ;;
     resp <- streamCloseAndRecv (fst (Store conn)) ;;
     match resp with
     | Failure err => fail err
     | Success resp => ret (GetGitoid resp)
     end)
      (mkState (trace st ++ [EvDial (Server opts); EvStore]) (sink st) []).
Proof.
  intros H. unfold storeInArchivist.
  unfold bind at 1, emit. unfold bind at 1. rewrite H. cbn [check].
  unfold ret at 1. unfold bind at 1, clientStore.
  destruct (Store conn) as [stream eopen]. unfold record.
  cbn [trace sink sent fst]. now rewrite <- app_assoc.
Qed.

Lemma storeInArchivist_total w opts signedBytes st :
  fst (storeInArchivist w opts signedBytes st) <> OutOfFuel.
Proof.
  destruct (grpcDial w (Server opts)) as [conn|e] eqn:Hd.
  - rewrite (storeInArchivist_dialed _ _ _ _ _ Hd). unfold bind at 1.
    match goal with
    | |- context [sendChunks ?f ?s ?b ?n ?c ?st] =>
        pose proof (sendChunks_total s b n f c st) as T;
        destruct (sendChunks f s b n c st) as [[[]| | |] st2]
    end.
    + unfold bind, streamCloseAndRecv.
      destruct (fst (Store conn)); [|discriminate].
      destruct (CloseAndRecv _ _); discriminate.
    + discriminate.
    + discriminate.
    + exfalso. apply T; cbn [fst]; try reflexivity; unfold len; lia.
  - rewrite (storeInArchivist_dial_failed _ _ _ _ _ Hd). discriminate.
Qed.

(** The upload reads nothing of the state it starts in but the stream,
    which it opens itself; it leaves the sink alone and only adds to the
    calls made. *)
Lemma storeInArchivist_extend w opts signedBytes st :
  sent st = [] ->
  storeInArchivist w opts signedBytes st
  = (fst (storeInArchivist w opts signedBytes initial),
     extend st (snd (storeInArchivist w opts signedBytes initial))).
Proof.
  intros Hsent.
  destruct (grpcDial w (Server opts)) as [conn|e] eqn:Hd.
  - rewrite !(storeInArchivist_dialed _ _ _ _ _ Hd).
    unfold bind at 1 3 5.
    rewrite sendChunks_extend.
    rewrite (sendChunks_extend _ _ _ _ _
               (mkState (trace initial ++ _) (sink initial) [])).
    unfold blank. cbn [sent trace sink initial app].
    destruct (sendChunks _ _ _ _ _ _) as [[[]| | |] d]; cbn [fst snd];
      try (unfold extend; cbn [trace sink sent app];
           now rewrite <- ?app_assoc).
    unfold bind, streamCloseAndRecv.
    destruct (fst (Store conn)) as [s|];
      [| unfold extend; cbn [fst snd trace sink sent app];
         now rewrite <- ?app_assoc].
    unfold extend. cbn [sent].
    destruct (CloseAndRecv s (sent d)); unfold fail, ret, record;
      cbn [fst snd trace sink sent app]; now rewrite <- ?app_assoc.
  - rewrite !(storeInArchivist_dial_failed _ _ _ _ _ Hd).
    unfold record, extend. cbn [fst snd trace sink sent initial app].
    now rewrite Hsent.
Qed.

Lemma chunk_mkChunk (fs : list (list byte)) : map chunk (map mkChunk fs) = fs.
Proof. rewrite map_map. cbn [chunk]. apply map_id. Qed.

(** On a stream that takes every frame, the upload delivers the
    partition of the payload and returns what the far end answers. *)
Lemma storeInArchivist_delivers w opts (payload : list byte) st conn s eopen :
  len payload + chunkSize <= maxInt ->
  grpcDial w (Server opts) = Success conn ->
  Store conn = (Some s, eopen) ->
  (forall delivered c, Send s delivered c = None) ->
  storeInArchivist w opts payload st
  = (match CloseAndRecv s (map mkChunk (partition payload)) with
     | Success resp => Ok (GetGitoid resp)
     | Failure err => Err err
     end,
     mkState (trace st
              ++ [EvDial (Server opts); EvStore]
              ++ map EvSend (map mkChunk (partition payload))
              ++ [EvCloseAndRecv])
             (sink st)
             (map mkChunk (partition payload))).
Proof.
  intros Hmax Hd Hs Hsend.
  rewrite (storeInArchivist_dialed _ _ _ _ _ Hd). rewrite Hs. cbn [fst].
  unfold bind at 1.
  rewrite (sendChunks_delivers s payload Hsend Hmax);
    [| lia | rewrite (dropZ_nonpos 0) by lia; lia].
  rewrite (dropZ_nonpos 0) by lia. cbn [trace sink sent app].
  unfold bind, streamCloseAndRecv, record. cbn [trace sink sent].
  destruct (CloseAndRecv s (map mkChunk (partition payload)));
    unfold ret, fail; f_equal; f_equal; rewrite <- !app_assoc; reflexivity.
Qed.

(** C4. Chunk partitioning round-trip.  For every payload (of a length
    that leaves room for one more frame below the largest [int], as every
    Go byte slice does), on a connection whose stream takes every frame,
    the upload sends exactly the frames it delivers, in order, between
    opening the session and closing it; the frames are the consecutive
    pieces of the payload: frame [k] is the bytes from [k * 65536] on, at
    most 65536 of them, none empty; there are [ceil(L / 65536)] frames
    (none for the empty payload); the last one holds [L mod 65536] bytes,
    or 65536 when that is zero; and their concatenation in send order is
    the payload. *)
Theorem chunk_partition_roundtrip
        w opts (payload : list byte) st conn s eopen :
  len payload + chunkSize <= maxInt ->
  grpcDial w (Server opts) = Success conn ->
  Store conn = (Some s, eopen) ->
  (forall delivered c, Send s delivered c = None) ->
  trace (snd (storeInArchivist w opts payload st))
  = trace st ++ [EvDial (Server opts); EvStore]
             ++ map EvSend (map mkChunk (framesSent w opts payload st))
             ++ [EvCloseAndRecv]
  /\ framesSent w opts payload st = partition payload
  /\ Forall (fun f => 0 < len f <= 65536) (framesSent w opts payload st)
  /\ (forall k f,
        nth_error (framesSent w opts payload st) k = Some f ->
        f = takeZ 65536 (dropZ (Z.of_nat k * 65536) payload))
  /\ len (framesSent w opts payload st) = (len payload + 65535) / 65536
  /\ (payload <> [] ->
      len (last (framesSent w opts payload st) [])
      = if len payload mod 65536 =? 0 then 65536 else len payload mod 65536)
  /\ List.concat (framesSent w opts payload st) = payload.
Proof.
  intros Hmax Hd Hs Hsend. unfold framesSent.
  rewrite (storeInArchivist_delivers _ _ _ _ _ _ _ Hmax Hd Hs Hsend).
  cbn [snd trace sent]. rewrite chunk_mkChunk.
  split; [reflexivity|]. split; [reflexivity|].
  split; [exact (partition_bounds payload)|].
  split; [exact (partition_nth payload)|].
  split.
  { rewrite partition_count. unfold ceilDiv. rewrite chunkSize_eq.
    f_equal. lia. }
  split; [exact (partition_last payload) | exact (partition_concat payload)].
Qed.

Lemma chunk_partition_roundtrip_witness :
  len Demo.hello + chunkSize <= maxInt /\
  List.concat (framesSent Demo.healthy Demo.archivist Demo.hello initial)
  = Demo.hello.
Proof.
  assert (H : len Demo.hello + chunkSize <= maxInt)
    by (vm_compute; discriminate).
  split; [exact H|].
  apply (chunk_partition_roundtrip
           Demo.healthy Demo.archivist Demo.hello
           initial Demo.conn Demo.stream None H eq_refl eq_refl
           (fun _ _ => eq_refl)).
Defined.

(** The lengths named in the specification: one frame for 65536 bytes,
    a full frame and one byte for 65537, two full frames for 131072. *)
Example upload_boundaries :
  let lengths L :=
    map (fun c => len (chunk c))
        (sent (snd (storeInArchivist (Demo.world Demo.rekorUp Demo.conn)
                                     Demo.archivist
                                     (repeat x00 (Z.to_nat L)) initial))) in
  lengths 0 = [] /\ lengths 11 = [11] /\ lengths 65536 = [65536] /\
  lengths 65537 = [65536; 1] /\ lengths 131072 = [65536; 65536].
Proof. vm_compute. repeat split. Qed.

(** C7. Zero-length payload upload.  Once the connection is there and
    [Store] has returned a stream, the upload of the empty payload opens
    the session, sends no frame, closes the send side and waits for the
    response; it returns the identifier of the response, or the error of
    [CloseAndRecv]: the partitioning adds no error of its own. *)
Theorem empty_payload_upload w opts st conn s eopen :
  grpcDial w (Server opts) = Success conn ->
  Store conn = (Some s, eopen) ->
  storeInArchivist w opts [] st
  = (match CloseAndRecv s [] with
     | Success resp => Ok (GetGitoid resp)
     | Failure err => Err err
     end,
     mkState (trace st ++ [EvDial (Server opts); EvStore; EvCloseAndRecv])
             (sink st) []).
Proof.
  intros Hd Hs.
  rewrite (storeInArchivist_dialed _ _ _ _ _ Hd). rewrite Hs. cbn [fst].
  unfold bind at 1. cbn [List.length]. rewrite sendChunks_stop by reflexivity.
  unfold bind, streamCloseAndRecv, record. cbn [trace sink sent].
  destruct (CloseAndRecv s []); unfold ret, fail; f_equal; f_equal;
    rewrite <- !app_assoc; reflexivity.
Qed.

Lemma empty_payload_upload_witness :
  storeInArchivist (Demo.world Demo.rekorUp Demo.conn) Demo.archivist []
                   initial
  = (Ok Demo.gitoid,
     mkState [EvDial "archivist:8080"; EvStore; EvCloseAndRecv] [] []).
Proof.
  exact (empty_payload_upload (Demo.world Demo.rekorUp Demo.conn)
                              Demo.archivist initial Demo.conn Demo.stream
                              None eq_refl eq_refl).
Defined.

(** C9. The error of [client.Store] is never checked.  Two worlds whose
    connections return the same stream from [Store], whatever the errors
    they return with it, give the same upload; an error the upload
    returns was returned by a [Send] or by [CloseAndRecv] of that stream;
    when [Store] returned no stream the upload panics on the first method
    call; and the upload always comes to an end. *)
Theorem store_open_error_unchecked
        w w' opts (signedBytes : list byte) st conn conn' :
  grpcDial w (Server opts) = Success conn ->
  grpcDial w' (Server opts) = Success conn' ->
  fst (Store conn) = fst (Store conn') ->
  storeInArchivist w opts signedBytes st
  = storeInArchivist w' opts signedBytes st
  /\ (forall e,
        fst (storeInArchivist w opts signedBytes st) = Err e ->
        exists s, fst (Store conn) = Some s /\
                  ((exists delivered c, Send s delivered c = Some e) \/
                   (exists delivered, CloseAndRecv s delivered = Failure e)))
  /\ (fst (Store conn) = None ->
      fst (storeInArchivist w opts signedBytes st) = Panic nilDeref)
  /\ fst (storeInArchivist w opts signedBytes st) <> OutOfFuel.
Proof.
  intros Hd Hd' Hsame.
  split; [|split; [|split]].
  - rewrite (storeInArchivist_dialed _ _ _ _ _ Hd).
    rewrite (storeInArchivist_dialed _ _ _ _ _ Hd').
    now rewrite Hsame.
  - intros e. rewrite (storeInArchivist_dialed _ _ _ _ _ Hd).
    unfold bind at 1.
    match goal with
    | |- context [sendChunks ?f ?s ?b ?n ?c ?st] =>
        pose proof (sendChunks_err s b n e f c st) as E;
        destruct (sendChunks f s b n c st) as [[[]| e0 | |] st2]
    end; cbn [fst] in *; try discriminate.
    + unfold bind, streamCloseAndRecv.
      destruct (fst (Store conn)) as [s|]; [|discriminate].
      destruct (CloseAndRecv s (sent st2)) as [resp|e1] eqn:Ec;
        unfold ret, fail; cbn [fst]; [discriminate|].
      intros [= ->]. exists s. split; [reflexivity|]. right. eauto.
    + intros [= ->]. destruct (E eq_refl) as (s & delivered & c & Hs & Hsend).
      exists s. split; [exact Hs|]. left. eauto.
  - intros Hnil. rewrite (storeInArchivist_dialed _ _ _ _ _ Hd).
    rewrite Hnil. unfold bind at 1.
    destruct signedBytes as [|b bs].
    + cbn [List.length]. rewrite sendChunks_stop by reflexivity. reflexivity.
    + match goal with
      | |- context [sendChunks ?f None ?b ?n ?c ?st] =>
          pose proof (sendChunks_nil b f st ltac:(lia) ltac:(discriminate))
            as N;
          destruct (sendChunks f None b n c st) as [r st2]
      end.
      cbn [fst] in N. subst r. reflexivity.
  - apply storeInArchivist_total.
Qed.

Lemma store_open_error_unchecked_witness :
  storeInArchivist (Demo.world Demo.rekorUp Demo.deafConn) Demo.archivist
                   Demo.hello initial
  = storeInArchivist
      (Demo.world Demo.rekorUp (mkClientConn (Some Demo.deafStream, None)))
      Demo.archivist Demo.hello initial.
Proof.
  exact (proj1 (store_open_error_unchecked
                  (Demo.world Demo.rekorUp Demo.deafConn)
                  (Demo.world Demo.rekorUp
                              (mkClientConn (Some Demo.deafStream, None)))
                  Demo.archivist Demo.hello initial _ _
                  eq_refl eq_refl eq_refl)).
Defined.

(** The open error "no route to host" is nowhere in what the upload
    returns: with a stream the caller sees the error of [Send], without
    one the panic. *)
Example store_open_error_lost :
  fst (storeInArchivist (Demo.world Demo.rekorUp Demo.deafConn)
                        Demo.archivist Demo.hello initial)
  = Err (errorString "EOF")
  /\ fst (storeInArchivist (Demo.world Demo.rekorUp Demo.noStream)
                           Demo.archivist Demo.hello initial)
     = Panic nilDeref
  /\ fst (storeInArchivist (Demo.world Demo.rekorUp Demo.noStream)
                           Demo.archivist [] initial)
     = Panic nilDeref.
Proof. vm_compute. repeat split. Qed.

(** ** [runRun]: signer resolution *)

Lemma forEach_logError errors : forall st,
  forEach errors (fun err => logError (Error err)) st
  = (Ok tt, mkState (trace st ++ loggedErrors errors) (sink st) (sent st)).
Proof.
  induction errors as [|e errors IH]; intros st.
  - cbn [forEach loggedErrors map]. unfold ret. rewrite app_nil_r.
    now destruct st.
  - cbn [forEach loggedErrors map]. unfold bind, logError, emit.
    rewrite IH. unfold record, loggedErrors. cbn [trace sink sent].
    now rewrite <- app_assoc.
Qed.

Lemma existsb_loggedErrors (P : Event -> bool) errors :
  (forall lvl msg, P (EvLog lvl msg) = false) ->
  existsb P (loggedErrors errors) = false.
Proof.
  intros HP. induction errors as [|e errors IH]; [reflexivity|].
  cbn [loggedErrors map existsb]. rewrite HP. exact IH.
Qed.

(** The four ways through the head of [runRun]. *)
Lemma runRun_unfold w ro args st :
  runRun w ro args st
  = let (signers, errors) := loadSigners w (ro_KeyOptions ro) in
    match errors with
    | _ :: _ =>
        (Err (errorString "failed to load signers"),
         mkState (trace st ++ loggedErrors errors) (sink st) (sent st))
    | [] =>
        match signers with
        | [] =>
            (Err (errorString "no signers found"),
             record (EvLog LvlError "no signers found") st)
        | [signer] => runRunWith w ro args signer st
        | _ :: _ :: _ =>
            (Err (errorString "only one signer is supported"),
             record (EvLog LvlError "only one signer is supported") st)
        end
    end.
Proof.
  unfold runRun.
  destruct (loadSigners w (ro_KeyOptions ro)) as [signers errors].
  destruct errors as [|e errors].
  - change (len (@nil error) >? 0) with false. cbv iota.
    destruct signers as [|s [|s' r]].
    + reflexivity.
    + reflexivity.
    + assert (H : (len (s :: s' :: r) >? 1) = true).
      { rewrite Z.gtb_ltb. apply Z.ltb_lt. rewrite !len_cons.
        pose proof (len_nonneg r). lia. }
      rewrite H. reflexivity.
  - assert (H : (len (e :: errors) >? 0) = true).
    { rewrite Z.gtb_ltb. apply Z.ltb_lt. rewrite len_cons.
      pose proof (len_nonneg errors). lia. }
    rewrite H. unfold bind. rewrite forEach_logError. reflexivity.
Qed.

(** Modelled [loadSigners] tries every source: each one gives a signer
    or an error. *)
Lemma loadSigners_all_sources w ko :
  (List.length (fst (loadSigners w ko))
   + List.length (snd (loadSigners w ko)) = List.length ko)%nat.
Proof.
  induction ko as [|src rest IH]; [reflexivity|].
  cbn [loadSigners]. destruct (loadSigners w rest) as [signers errors].
  cbn [fst snd] in IH.
  destruct (newSigner w src); cbn [fst snd List.length]; lia.
Qed.

(** C1, as the code has it.  Every construction failure is collected and
    logged, in the order of the sources, and any construction failure
    fails the run with "failed to load signers", however many signers
    were constructed: nothing else is called. *)
Theorem construction_failure_fails_run w ro args st :
  snd (loadSigners w (ro_KeyOptions ro)) <> [] ->
  runRun w ro args st
  = (Err (errorString "failed to load signers"),
     mkState (trace st
              ++ loggedErrors (snd (loadSigners w (ro_KeyOptions ro))))
             (sink st) (sent st)).
Proof.
  intros Hne. rewrite runRun_unfold.
  destruct (loadSigners w (ro_KeyOptions ro)) as [signers [|e errors]];
    cbn [snd] in *; [congruence | reflexivity].
Qed.

Lemma construction_failure_fails_run_witness :
  runRun (Demo.world Demo.rekorUp Demo.conn)
         (Demo.options Demo.twoFailOneLoads "" "" "") ["make"%string] initial
  = (Err (errorString "failed to load signers"),
     mkState [EvLog LvlError "cannot load x"; EvLog LvlError "cannot load y"]
             [] []).
Proof.
  apply (construction_failure_fails_run
           (Demo.world Demo.rekorUp Demo.conn)
           (Demo.options Demo.twoFailOneLoads "" "" "") ["make"%string]
           initial).
  vm_compute. discriminate.
Defined.

(** C1 fails as stated: of three sources two fail to construct and one
    gives the signer [signerA]; the run does not go on with that signer
    but fails, having logged the two errors. *)
Lemma construction_failures_not_tolerated :
  List.length (ro_KeyOptions (Demo.quiet Demo.twoFailOneLoads)) = 3%nat
  /\ loadSigners Demo.healthy (ro_KeyOptions (Demo.quiet Demo.twoFailOneLoads))
     = ([Demo.signerA],
        [errorString "cannot load x"; errorString "cannot load y"])
  /\ fst (runRun Demo.healthy (Demo.quiet Demo.twoFailOneLoads) Demo.command
                 initial)
     = Err (errorString "failed to load signers")
  /\ runRun Demo.healthy (Demo.quiet Demo.twoFailOneLoads) Demo.command
            initial
     <> runRunWith Demo.healthy (Demo.quiet Demo.twoFailOneLoads)
                   Demo.command Demo.signerA initial.
Proof.
  split; [reflexivity|]. split; [reflexivity|].
  split; [reflexivity|]. vm_compute. discriminate.
Qed.

(** C3, as the code has it.  When no source fails to construct: with no
    signer the run fails with "no signers found", with two or more it
    fails with "only one signer is supported", both logged and with
    nothing else called; with exactly one the run is the rest of the
    pipeline with that signer. *)
Theorem signer_cardinality w ro args st signers :
  loadSigners w (ro_KeyOptions ro) = (signers, []) ->
  (signers = [] ->
   runRun w ro args st
   = (Err (errorString "no signers found"),
      record (EvLog LvlError "no signers found") st))
  /\ ((2 <= List.length signers)%nat ->
      runRun w ro args st
      = (Err (errorString "only one signer is supported"),
         record (EvLog LvlError "only one signer is supported") st))
  /\ (forall signer,
        signers = [signer] ->
        runRun w ro args st = runRunWith w ro args signer st).
Proof.
  intros Hload. rewrite runRun_unfold, Hload.
  split; [|split].
  - intros ->. reflexivity.
  - intros Hlen. destruct signers as [|s [|s' r]]; cbn in Hlen; try lia.
    reflexivity.
  - intros signer ->. reflexivity.
Qed.

Lemma signer_cardinality_witness :
  runRun (Demo.world Demo.rekorUp Demo.conn)
         (Demo.options ["a"%string] "" "" "") [] initial
  = runRunWith (Demo.world Demo.rekorUp Demo.conn)
               (Demo.options ["a"%string] "" "" "") [] Demo.signerA initial.
Proof.
  exact (proj2 (proj2 (signer_cardinality
                         (Demo.world Demo.rekorUp Demo.conn)
                         (Demo.options ["a"%string] "" "" "") [] initial
                         [Demo.signerA] eq_refl))
               Demo.signerA eq_refl).
Defined.

(** C3 fails as stated.  A single source that fails to construct yields
    no signer, and the error is not "no signers found"; three sources of
    which two construct yield two signers, and the error is not "only
    one signer is supported"; three sources of which one constructs yield
    one signer, and the run does not go on with it. *)
Lemma signer_cardinality_counterexample :
  (fst (loadSigners Demo.healthy Demo.oneFails) = []
   /\ fst (runRun Demo.healthy (Demo.quiet Demo.oneFails) Demo.command
                  initial)
      <> Err (errorString "no signers found"))
  /\ (fst (loadSigners Demo.healthy Demo.oneFailsTwoLoad)
      = [Demo.signerA; Demo.signerB]
      /\ fst (runRun Demo.healthy (Demo.quiet Demo.oneFailsTwoLoad)
                     Demo.command initial)
         <> Err (errorString "only one signer is supported"))
  /\ (fst (loadSigners Demo.healthy Demo.twoFailOneLoads) = [Demo.signerA]
      /\ fst (runRun Demo.healthy (Demo.quiet Demo.twoFailOneLoads)
                     Demo.command initial)
         = Err (errorString "failed to load signers")
      /\ runRun Demo.healthy (Demo.quiet Demo.twoFailOneLoads) Demo.command
                initial
         <> runRunWith Demo.healthy (Demo.quiet Demo.twoFailOneLoads)
                       Demo.command Demo.signerA initial).
Proof.
  repeat split; try reflexivity; vm_compute; discriminate.
Qed.

(** ** [runRun]: the local write and the publishing steps *)

Lemma existsb_snoc (P : Event -> bool) t e :
  existsb P (t ++ [e]) = existsb P t || P e.
Proof. rewrite existsb_app. cbn [existsb]. now rewrite orb_false_r. Qed.

Lemma takeZ_len (p : list byte) : takeZ (len p) p = p.
Proof. apply takeZ_all. lia. Qed.

Lemma sendChunks_sink stream (signedBytes : list byte) size fuel curr st :
  sink (snd (sendChunks fuel stream signedBytes size curr st)) = sink st.
Proof. rewrite sendChunks_extend. reflexivity. Qed.

Lemma storeInArchivist_sink w opts signedBytes st :
  sink (snd (storeInArchivist w opts signedBytes st)) = sink st.
Proof.
  destruct (grpcDial w (Server opts)) as [conn|e] eqn:Hd.
  - rewrite (storeInArchivist_dialed _ _ _ _ _ Hd). unfold bind at 1.
    match goal with
    | |- context [sendChunks ?f ?s ?b ?n ?c ?st] =>
        pose proof (sendChunks_sink s b n f c st) as S;
        destruct (sendChunks f s b n c st) as [[[]| | |] st2]
    end; cbn [snd trace sink] in *; try exact S.
    unfold bind, streamCloseAndRecv.
    destruct (fst (Store conn)) as [s|]; [|exact S].
    destruct (CloseAndRecv s (sent st2)); exact S.
  - rewrite (storeInArchivist_dial_failed _ _ _ _ _ Hd). reflexivity.
Qed.

(** The upload begins by dialing. *)
Lemma storeInArchivist_trace w opts signedBytes st :
  exists t,
    trace (snd (storeInArchivist w opts signedBytes st))
    = trace st ++ EvDial (Server opts) :: t.
Proof.
  destruct (grpcDial w (Server opts)) as [conn|e] eqn:Hd.
  - rewrite (storeInArchivist_dialed _ _ _ _ _ Hd). unfold bind at 1.
    rewrite sendChunks_extend.
    match goal with
    | |- context [sendChunks ?f ?s ?b ?n ?c ?st] =>
        destruct (sendChunks f s b n c st) as [[[]| | |] d]
    end; cbn [fst snd]; unfold extend;
      try (eexists; cbn [trace]; rewrite <- app_assoc; reflexivity).
    unfold bind, streamCloseAndRecv.
    destruct (fst (Store conn)) as [s|];
      [| eexists; cbn [snd trace]; rewrite <- app_assoc; reflexivity].
    cbn [sent].
    destruct (CloseAndRecv s (sent d)); unfold ret, fail, record;
      eexists; cbn [snd trace]; rewrite <- !app_assoc; reflexivity.
  - rewrite (storeInArchivist_dial_failed _ _ _ _ _ Hd).
    exists []. reflexivity.
Qed.

Lemma publishRekor_off w ro signer signedBytes st :
  RekorServer ro = EmptyString ->
  publishRekor w ro signer signedBytes st = (Ok tt, st).
Proof. intros H. unfold publishRekor. rewrite H. reflexivity. Qed.

(** The transparency-log step adds its own calls and nothing else. *)
Lemma publishRekor_cases w ro signer signedBytes st :
  exists t,
    existsb isArchivistCall t = false /\
    snd (publishRekor w ro signer signedBytes st)
    = mkState (trace st ++ t) (sink st) (sent st) /\
    if rekorFails w ro signer signedBytes
    then exists e, fst (publishRekor w ro signer signedBytes st) = Err e
    else fst (publishRekor w ro signer signedBytes st) = Ok tt.
Proof.
  unfold publishRekor, rekorFails, rekorStep.
  destruct (String.eqb (RekorServer ro) "").
  { exists []. cbn [negb]. unfold ret. cbn [fst snd].
    rewrite app_nil_r. split; [reflexivity|]. split; [now destruct st|].
    reflexivity. }
  cbn [negb]. unfold logInfof, bind, check, emit, ret, fail, record.
  destruct (GetVerifier signer) as [v|e].
  2:{ exists []. rewrite app_nil_r. cbn [fst snd].
      split; [reflexivity|]. split; [now destruct st | eauto]. }
  destruct (Bytes v) as [k|e].
  2:{ exists []. rewrite app_nil_r. cbn [fst snd].
      split; [reflexivity|]. split; [now destruct st | eauto]. }
  destruct (rekorNew w (RekorServer ro)) as [rc|e];
    [destruct (StoreArtifact rc signedBytes k) as [loc|e]|];
    (eexists; split; [|split];
     [ | cbn [fst snd trace sink sent]; rewrite <- ?app_assoc; reflexivity
       | cbn [fst]; eauto ]; reflexivity).
Qed.

(** When the submission itself fails, its error comes back wrapped and
    the two calls to the log are the only ones made. *)
Lemma publishRekor_submission_failed
      w ro signer signedBytes st verifier pubKeyBytes rc e :
  RekorServer ro <> EmptyString ->
  GetVerifier signer = Success verifier ->
  Bytes verifier = Success pubKeyBytes ->
  rekorNew w (RekorServer ro) = Success rc ->
  StoreArtifact rc signedBytes pubKeyBytes = Failure e ->
  publishRekor w ro signer signedBytes st
  = (Err (wrapError "failed to store artifact in rekor" e),
     mkState (trace st ++ [EvRekorNew (RekorServer ro);
                           EvStoreArtifact signedBytes pubKeyBytes])
             (sink st) (sent st)).
Proof.
  intros Hon Hv Hb Hn Hs. unfold publishRekor.
  destruct (String.eqb_spec (RekorServer ro) ""); [congruence|].
  cbn [negb]. unfold bind, emit, record. rewrite Hv. cbn [check].
  unfold ret at 1. rewrite Hb. cbn [check]. unfold ret at 1.
  rewrite Hn. cbn [check trace sink sent]. unfold ret at 1.
  rewrite Hs. cbn [check]. unfold fail.
  cbn [trace sink sent]. now rewrite <- ?app_assoc.
Qed.

Lemma publishArchivist_off w ro signedBytes st :
  Server (ro_ArchivistOptions ro) = EmptyString ->
  publishArchivist w ro signedBytes st = (Ok tt, st).
Proof. intros H. unfold publishArchivist. rewrite H. reflexivity. Qed.

Lemma publishArchivist_sink w ro signedBytes st :
  sink (snd (publishArchivist w ro signedBytes st)) = sink st.
Proof.
  unfold publishArchivist.
  destruct (String.eqb (Server (ro_ArchivistOptions ro)) "");
    [reflexivity|].
  cbn [negb]. unfold bind, mapErr.
  pose proof (storeInArchivist_sink w (ro_ArchivistOptions ro) signedBytes st)
    as S.
  destruct (storeInArchivist w (ro_ArchivistOptions ro) signedBytes st)
    as [[g| | |] st2]; cbn [snd] in *; exact S.
Qed.

(** Configured, the artifact-store step dials. *)
Lemma publishArchivist_attempted w ro signedBytes st :
  Server (ro_ArchivistOptions ro) <> EmptyString ->
  archivistAttempted (trace (snd (publishArchivist w ro signedBytes st)))
  = true.
Proof.
  intros Hon. unfold publishArchivist.
  destruct (String.eqb_spec (Server (ro_ArchivistOptions ro)) "");
    [congruence|].
  cbn [negb]. unfold bind, mapErr.
  destruct (storeInArchivist_trace w (ro_ArchivistOptions ro) signedBytes st)
    as [t Ht].
  assert (A : archivistAttempted (trace st ++ EvDial (Server (ro_ArchivistOptions ro)) :: t) = true).
  { unfold archivistAttempted. rewrite existsb_app. cbn [existsb isArchivistCall].
    now rewrite orb_true_r. }
  destruct (storeInArchivist w (ro_ArchivistOptions ro) signedBytes st)
    as [[g| | |] st2]; cbn [snd] in *; try (rewrite Ht; exact A).
  unfold logInfof, emit, record. cbn [snd trace]. rewrite Ht.
  unfold archivistAttempted in *. rewrite existsb_app, A. reflexivity.
Qed.

(** An upload that fails fails the step, with the error wrapped. *)
Lemma publishArchivist_failed w ro signedBytes st e :
  Server (ro_ArchivistOptions ro) <> EmptyString ->
  sent st = [] ->
  fst (storeInArchivist w (ro_ArchivistOptions ro) signedBytes initial)
  = Err e ->
  fst (publishArchivist w ro signedBytes st)
  = Err (wrapError "failed to store artifact in archivist" e).
Proof.
  intros Hon Hsent Hfail. unfold publishArchivist.
  destruct (String.eqb_spec (Server (ro_ArchivistOptions ro)) "");
    [congruence|].
  cbn [negb]. unfold bind, mapErr.
  rewrite (storeInArchivist_extend _ _ _ st Hsent). rewrite Hfail.
  reflexivity.
Qed.

Lemma runRunWith_outfile_failed w ro args signer st e :
  loadOutfile w (OutFilePath ro) = Failure e ->
  runRunWith w ro args signer st
  = (Err (wrapError "failed to open out file" e),
     record (EvLoadOutfile (OutFilePath ro)) st).
Proof.
  intros H. unfold runRunWith, bind, emit. rewrite H. reflexivity.
Qed.

(** After a successful write the run is the two publishing steps, then
    the deferred [Close]. *)
Lemma runRun_written w ro args signer signedBytes :
  writesEnvelope w ro args signer signedBytes ->
  runRun w ro args initial
  = let r := (publishRekor w ro signer signedBytes ;;
              publishArchivist w ro signedBytes)
               (mkState (callsToWrite ro args signer signedBytes)
                        signedBytes [])
    in (fst r, record EvClose (snd r)).
Proof.
  intros (out & result & Hload & Hout & Hrun & Hjson & Hwrite).
  rewrite runRun_unfold, Hload. unfold runRunWith.
  unfold bind at 1, emit. unfold bind at 1. rewrite Hout. cbn [check].
  unfold ret at 1. unfold defer, fileClose, emit.
  unfold bind at 1. unfold bind at 1. rewrite Hrun. cbn [check].
  unfold ret at 1. unfold bind at 1. rewrite Hjson. cbn [check].
  unfold ret at 1. unfold bind at 1, fileWrite. rewrite Hwrite.
  rewrite takeZ_len. unfold record, callsToWrite.
  cbn [trace sink sent initial app].
  destruct ((publishRekor w ro signer signedBytes ;;
             publishArchivist w ro signedBytes) _) as [r st2].
  reflexivity.
Qed.

(** C6. Write durability independent of publishing.  When neither
    endpoint is configured and signer resolution, execution,
    serialization and the local write all succeed, the run returns
    success; the sink holds the marshalled envelope and nothing else, and
    the only calls are opening the file, [witness.Run], the write and the
    close. *)
Theorem write_without_publishing w ro args signer signedBytes :
  writesEnvelope w ro args signer signedBytes ->
  RekorServer ro = EmptyString ->
  Server (ro_ArchivistOptions ro) = EmptyString ->
  runRun w ro args initial
  = (Ok tt,
     mkState (callsToWrite ro args signer signedBytes ++ [EvClose])
             signedBytes []).
Proof.
  intros Hw Hr Ha. rewrite (runRun_written _ _ _ _ _ Hw). cbv zeta.
  unfold bind. rewrite publishRekor_off by exact Hr.
  rewrite publishArchivist_off by exact Ha. reflexivity.
Qed.

Lemma demo_writesEnvelope rc conn rekor archivist :
  writesEnvelope (Demo.world rc conn)
                 (Demo.options Demo.oneLoads "" rekor archivist)
                 Demo.command Demo.signerA Demo.hello.
Proof.
  exists Demo.file, (mkRunResult Demo.envelope).
  repeat split; reflexivity.
Defined.

Lemma write_without_publishing_witness :
  runRun (Demo.world Demo.rekorUp Demo.conn)
         (Demo.options Demo.oneLoads "" "" "") Demo.command initial
  = (Ok tt,
     mkState [EvLoadOutfile "";
              EvWitnessRun "build" Demo.signerA false Demo.command
                           ["environment"%string; "git"%string] "";
              EvWrite Demo.hello; EvClose]
             Demo.hello []).
Proof.
  exact (write_without_publishing
           (Demo.world Demo.rekorUp Demo.conn)
           (Demo.options Demo.oneLoads "" "" "") Demo.command
           Demo.signerA Demo.hello
           (demo_writesEnvelope Demo.rekorUp Demo.conn "" "")
           eq_refl eq_refl).
Defined.

(** The state a run leaves after the two publishing steps and the
    deferred [Close]: the sink is what the write left in it. *)
Lemma published_sink w ro signer signedBytes st :
  sink (snd ((publishRekor w ro signer signedBytes ;;
              publishArchivist w ro signedBytes) st))
  = sink st.
Proof.
  unfold bind.
  destruct (publishRekor_cases w ro signer signedBytes st)
    as (t & _ & Hst & _).
  destruct (publishRekor w ro signer signedBytes st) as [[[]| | |] st2];
    cbn [snd] in *; subst st2; try reflexivity.
  now rewrite publishArchivist_sink.
Qed.

(** After a successful write, a failing publishing step fails the run
    and leaves the sink as the write left it. *)
Lemma runRun_publishing_failed w ro args signer signedBytes :
  writesEnvelope w ro args signer signedBytes ->
  rekorFails w ro signer signedBytes = true
  \/ (Server (ro_ArchivistOptions ro) <> EmptyString
      /\ exists e,
           fst (storeInArchivist w (ro_ArchivistOptions ro) signedBytes
                                 initial) = Err e) ->
  (exists e, fst (runRun w ro args initial) = Err e)
  /\ sink (snd (runRun w ro args initial)) = signedBytes.
Proof.
  intros Hw Hfail. rewrite (runRun_written _ _ _ _ _ Hw). cbv zeta.
  cbn [fst snd]. unfold record at 1. cbn [sink].
  rewrite published_sink. cbn [sink]. split; [|reflexivity].
  unfold bind.
  match goal with
  | |- context [publishRekor w ro signer signedBytes ?st] =>
      destruct (publishRekor_cases w ro signer signedBytes st)
        as (t & _ & Hst & Hres);
      destruct (publishRekor w ro signer signedBytes st) as [r st2]
  end.
  cbn [fst snd] in *. subst st2.
  destruct (rekorFails w ro signer signedBytes).
  - destruct Hres as [e ->]. exists e. reflexivity.
  - subst r. destruct Hfail as [Hf | (Hon & e & He)]; [discriminate|].
    cbv beta iota.
    erewrite publishArchivist_failed;
      [eexists; reflexivity | exact Hon | reflexivity | exact He].
Qed.

(** C5. Non-reverting publishing failure.  After a successful local
    write, when the transparency-log step fails (getting the verifying
    key, the client or the submission), or the artifact-store endpoint is
    configured and the upload returns an error, the run returns an error
    and the sink holds the marshalled envelope, as the write left it. *)
Theorem publishing_failure_keeps_output w ro args signer signedBytes :
  writesEnvelope w ro args signer signedBytes ->
  rekorFails w ro signer signedBytes = true
  \/ (Server (ro_ArchivistOptions ro) <> EmptyString
      /\ exists e,
           fst (storeInArchivist w (ro_ArchivistOptions ro) signedBytes
                                 initial) = Err e) ->
  (exists e, fst (runRun w ro args initial) = Err e)
  /\ sink (snd (runRun w ro args initial)) = signedBytes.
Proof. exact (runRun_publishing_failed w ro args signer signedBytes). Qed.

Lemma publishing_failure_keeps_output_witness :
  (exists e,
     fst (runRun (Demo.world Demo.rekorUp Demo.deafConn)
                 (Demo.options Demo.oneLoads "" "" "archivist:8080")
                 Demo.command initial) = Err e)
  /\ sink (snd (runRun (Demo.world Demo.rekorUp Demo.deafConn)
                       (Demo.options Demo.oneLoads "" "" "archivist:8080")
                       Demo.command initial))
     = Demo.hello.
Proof.
  apply (publishing_failure_keeps_output
           (Demo.world Demo.rekorUp Demo.deafConn)
           (Demo.options Demo.oneLoads "" "" "archivist:8080")
           Demo.command Demo.signerA Demo.hello
           (demo_writesEnvelope Demo.rekorUp Demo.deafConn ""
                                "archivist:8080")).
  right. split; [discriminate|].
  exists (errorString "EOF"). reflexivity.
Defined.

(** ** Which calls a run makes *)

Lemma rekorFails_configured w ro signer signedBytes :
  rekorFails w ro signer signedBytes = true -> RekorServer ro <> EmptyString.
Proof.
  unfold rekorFails, rekorStep. intros H Hoff. rewrite Hoff in H.
  discriminate.
Qed.

(** After a successful write the artifact store is dialed when, and only
    when, the log step did not fail and the store's endpoint is
    configured. *)
Lemma runRun_written_attempted w ro args signer signedBytes :
  writesEnvelope w ro args signer signedBytes ->
  archivistAttempted (trace (snd (runRun w ro args initial)))
  = negb (rekorFails w ro signer signedBytes)
    && negb (String.eqb (Server (ro_ArchivistOptions ro)) "").
Proof.
  intros Hw. rewrite (runRun_written _ _ _ _ _ Hw). cbv zeta.
  cbn [snd]. unfold record. cbn [trace]. unfold archivistAttempted.
  rewrite existsb_snoc. cbn [isArchivistCall]. rewrite orb_false_r.
  unfold bind.
  match goal with
  | |- context [publishRekor w ro signer signedBytes ?st] =>
      destruct (publishRekor_cases w ro signer signedBytes st)
        as (t & Ht & Hst & Hres);
      destruct (publishRekor w ro signer signedBytes st) as [r st2]
  end.
  cbn [fst snd trace] in *. subst st2.
  destruct (rekorFails w ro signer signedBytes).
  - destruct Hres as [e ->]. cbn [snd trace negb andb].
    rewrite existsb_app, Ht. reflexivity.
  - subst r. cbn [negb andb]. cbv beta iota.
    destruct (String.eqb_spec (Server (ro_ArchivistOptions ro)) "")
      as [Hoff|Hon].
    + rewrite publishArchivist_off by exact Hoff. cbn [snd trace negb].
      rewrite existsb_app, Ht. reflexivity.
    + apply (publishArchivist_attempted w ro signedBytes _ Hon).
Qed.

(** Without an artifact-store endpoint the rest of the pipeline makes no
    call for the artifact store, whatever else happens. *)
Lemma runRunWith_no_archivist w ro args signer st :
  Server (ro_ArchivistOptions ro) = EmptyString ->
  archivistAttempted (trace (snd (runRunWith w ro args signer st)))
  = archivistAttempted (trace st).
Proof.
  intros Hoff. unfold archivistAttempted, runRunWith.
  unfold bind at 1, emit. unfold bind at 1.
  destruct (loadOutfile w (OutFilePath ro)) as [out|e]; cbn [check].
  2:{ unfold fail, record. cbn [snd trace]. rewrite existsb_snoc.
      now rewrite orb_false_r. }
  unfold ret at 1, defer, fileClose, emit.
  unfold bind at 1. unfold bind at 1.
  destruct (witnessRun w _ _ _ _ _ _) as [result|e]; cbn [check].
  2:{ unfold fail, record. cbn [snd trace]. rewrite !existsb_snoc.
      now rewrite !orb_false_r. }
  unfold ret at 1. unfold bind at 1.
  destruct (jsonMarshal w (SignedEnvelope result)) as [signedBytes|e];
    cbn [check].
  2:{ unfold fail, record. cbn [snd trace]. rewrite !existsb_snoc.
      now rewrite !orb_false_r. }
  unfold ret at 1. unfold bind at 1, fileWrite.
  destruct (Write out signedBytes) as [n [e|]].
  { unfold fail, record. cbn [snd trace]. rewrite !existsb_snoc.
    now rewrite !orb_false_r. }
  unfold bind.
  match goal with
  | |- context [publishRekor w ro signer signedBytes ?st] =>
      destruct (publishRekor_cases w ro signer signedBytes st)
        as (t & Ht & Hst & _);
      destruct (publishRekor w ro signer signedBytes st) as [[[]| | |] st2]
  end; cbn [snd] in Hst; subst st2;
    rewrite ?publishArchivist_off by exact Hoff;
    unfold record; cbn [snd trace]; rewrite !existsb_snoc, existsb_app, Ht;
    rewrite !existsb_snoc; now rewrite !orb_false_r.
Qed.

Lemma runRun_no_archivist w ro args :
  Server (ro_ArchivistOptions ro) = EmptyString ->
  archivistAttempted (trace (snd (runRun w ro args initial))) = false.
Proof.
  intros Hoff. rewrite runRun_unfold.
  destruct (loadSigners w (ro_KeyOptions ro)) as [signers [|e errors]].
  - destruct signers as [|s [|s' r]]; [reflexivity | | reflexivity].
    now rewrite runRunWith_no_archivist.
  - cbn [snd trace initial app]. apply existsb_loggedErrors. reflexivity.
Qed.

(** C2, as the code has it.  The two publishing steps run one after the
    other and the first failure ends the run.  After a successful local
    write: when the transparency-log step fails, the run returns an
    error, no call is made for the artifact store and the sink keeps the
    envelope; when it is the submission that fails, the error returned is
    that failure wrapped as "failed to store artifact in rekor" and the
    calls are those up to the submission, then [Close]; when the
    transparency-log step is skipped or succeeds, the artifact store is
    dialed exactly when its endpoint is configured. *)
Theorem log_failure_stops_publishing w ro args signer signedBytes :
  writesEnvelope w ro args signer signedBytes ->
  (rekorFails w ro signer signedBytes = true ->
   (exists e, fst (runRun w ro args initial) = Err e)
   /\ archivistAttempted (trace (snd (runRun w ro args initial))) = false
   /\ sink (snd (runRun w ro args initial)) = signedBytes)
  /\ (forall verifier pubKeyBytes rc e,
        RekorServer ro <> EmptyString ->
        GetVerifier signer = Success verifier ->
        Bytes verifier = Success pubKeyBytes ->
        rekorNew w (RekorServer ro) = Success rc ->
        StoreArtifact rc signedBytes pubKeyBytes = Failure e ->
        runRun w ro args initial
        = (Err (wrapError "failed to store artifact in rekor" e),
           mkState (callsToWrite ro args signer signedBytes
                    ++ [EvRekorNew (RekorServer ro);
                        EvStoreArtifact signedBytes pubKeyBytes;
                        EvClose])
                   signedBytes []))
  /\ (rekorFails w ro signer signedBytes = false ->
      archivistAttempted (trace (snd (runRun w ro args initial)))
      = negb (String.eqb (Server (ro_ArchivistOptions ro)) "")).
Proof.
  intros Hw. split; [|split].
  - intros Hf.
    destruct (runRun_publishing_failed w ro args signer signedBytes
                Hw (or_introl Hf)) as [Herr Hsink].
    split; [exact Herr|]. split; [|exact Hsink].
    rewrite (runRun_written_attempted _ _ _ _ _ Hw), Hf. reflexivity.
  - intros verifier pubKeyBytes rc e Hon Hv Hb Hn Hs.
    rewrite (runRun_written _ _ _ _ _ Hw). cbv zeta. unfold bind.
    rewrite (publishRekor_submission_failed _ _ _ _ _ _ _ _ _
               Hon Hv Hb Hn Hs).
    unfold record. cbn [fst snd trace sink sent].
    now rewrite <- app_assoc.
  - intros Hf.
    rewrite (runRun_written_attempted _ _ _ _ _ Hw), Hf. reflexivity.
Qed.

Lemma log_failure_stops_publishing_witness :
  runRun (Demo.world Demo.rekorDown Demo.conn)
         (Demo.options Demo.oneLoads "" "https://rekor" "archivist:8080")
         Demo.command initial
  = (Err (wrapError "failed to store artifact in rekor"
                    (errorString "rekor unavailable")),
     mkState [EvLoadOutfile "";
              EvWitnessRun "build" Demo.signerA false Demo.command
                           ["environment"%string; "git"%string] "";
              EvWrite Demo.hello;
              EvRekorNew "https://rekor";
              EvStoreArtifact Demo.hello [x01; x02];
              EvClose]
             Demo.hello []).
Proof.
  apply (proj1 (proj2 (log_failure_stops_publishing
                         (Demo.world Demo.rekorDown Demo.conn)
                         (Demo.options Demo.oneLoads "" "https://rekor"
                                       "archivist:8080")
                         Demo.command Demo.signerA Demo.hello
                         (demo_writesEnvelope Demo.rekorDown Demo.conn
                                              "https://rekor"
                                              "archivist:8080")))
               (mkVerifier (Success [x01; x02])) [x01; x02] Demo.rekorDown
               (errorString "rekor unavailable")).
  - discriminate.
  - reflexivity.
  - reflexivity.
  - reflexivity.
  - reflexivity.
Defined.

(** C2 fails as stated: both endpoints are configured, the submission to
    the transparency log fails, and the artifact store, which would have
    taken the upload, is never dialed; the error returned names the
    transparency log only. *)
Lemma publishing_steps_short_circuit :
  RekorServer Demo.publishing <> EmptyString
  /\ Server (ro_ArchivistOptions Demo.publishing) <> EmptyString
  /\ writesEnvelope Demo.logDown Demo.publishing Demo.command Demo.signerA
                    Demo.hello
  /\ StoreArtifact Demo.rekorDown Demo.hello [x01; x02]
     = Failure (errorString "rekor unavailable")
  /\ fst (storeInArchivist Demo.logDown (ro_ArchivistOptions Demo.publishing)
                           Demo.hello initial)
     = Ok Demo.gitoid
  /\ fst (runRun Demo.logDown Demo.publishing Demo.command initial)
     = Err (wrapError "failed to store artifact in rekor"
                      (errorString "rekor unavailable"))
  /\ archivistAttempted
       (trace (snd (runRun Demo.logDown Demo.publishing Demo.command
                           initial)))
     = false.
Proof.
  split; [discriminate|]. split; [discriminate|].
  split; [exact (demo_writesEnvelope _ _ _ _)|].
  repeat split.
Qed.

(** C8. Failure ordering of configuration errors.  When signer
    resolution fails (a construction error, no signer, or more than one)
    the run returns an error and neither [witness.Run] nor the network is
    called; when the output file cannot be opened the run returns an
    error and neither the network (no client for the transparency log, no
    submission, no dial of the artifact store, no stream) nor
    [witness.Run] is called. *)
Theorem configuration_errors_come_first w ro args :
  (snd (loadSigners w (ro_KeyOptions ro)) <> []
   \/ List.length (fst (loadSigners w (ro_KeyOptions ro))) <> 1%nat ->
   (exists e, fst (runRun w ro args initial) = Err e)
   /\ existsb isWitnessRun (trace (snd (runRun w ro args initial))) = false
   /\ existsb isNetworkCall (trace (snd (runRun w ro args initial))) = false)
  /\ (forall e,
        loadOutfile w (OutFilePath ro) = Failure e ->
        (exists e', fst (runRun w ro args initial) = Err e')
        /\ existsb isNetworkCall (trace (snd (runRun w ro args initial)))
           = false
        /\ existsb isWitnessRun (trace (snd (runRun w ro args initial)))
           = false).
Proof.
  rewrite runRun_unfold.
  destruct (loadSigners w (ro_KeyOptions ro)) as [signers [|e0 errors]];
    cbn [fst snd].
  - destruct signers as [|s [|s' r]].
    + split; [intros _ | intros e _];
        (split; [eexists; reflexivity | split; reflexivity]).
    + split.
      * intros [H|H]; [congruence | cbn in H; congruence].
      * intros e He. rewrite (runRunWith_outfile_failed _ _ _ _ _ _ He).
        split; [eexists; reflexivity | split; reflexivity].
    + split; [intros _ | intros e _];
        (split; [eexists; reflexivity | split; reflexivity]).
  - split; [intros _ | intros e _];
      (split; [eexists; reflexivity |]);
      cbn [snd trace initial app];
      (split; apply existsb_loggedErrors; reflexivity).
Qed.

Lemma configuration_errors_come_first_witness :
  ((exists e,
      fst (runRun Demo.healthy (Demo.quiet Demo.oneFails) Demo.command
                  initial) = Err e)
   /\ existsb isWitnessRun
        (trace (snd (runRun Demo.healthy (Demo.quiet Demo.oneFails)
                            Demo.command initial))) = false
   /\ existsb isNetworkCall
        (trace (snd (runRun Demo.healthy (Demo.quiet Demo.oneFails)
                            Demo.command initial))) = false)
  /\ ((exists e',
       fst (runRun Demo.healthy
                   (Demo.options Demo.oneLoads "/nowhere/out" "https://rekor"
                                 "archivist:8080")
                   Demo.command initial) = Err e')
      /\ existsb isNetworkCall
           (trace (snd (runRun Demo.healthy
                               (Demo.options Demo.oneLoads "/nowhere/out"
                                             "https://rekor" "archivist:8080")
                               Demo.command initial))) = false
      /\ existsb isWitnessRun
           (trace (snd (runRun Demo.healthy
                               (Demo.options Demo.oneLoads "/nowhere/out"
                                             "https://rekor" "archivist:8080")
                               Demo.command initial))) = false).
Proof.
  split.
  - apply (proj1 (configuration_errors_come_first
                    Demo.healthy (Demo.quiet Demo.oneFails) Demo.command)).
    left. vm_compute. discriminate.
  - exact (proj2 (configuration_errors_come_first
                    Demo.healthy
                    (Demo.options Demo.oneLoads "/nowhere/out" "https://rekor"
                                  "archivist:8080")
                    Demo.command)
                 (errorString "failed to create output file") eq_refl).
Defined.

(** C10. The [Enable] flag is never read.  Run options that differ only
    in the artifact-store options, and there agree on [Server], give the
    same run: neither [Enable] nor [Url] has any part in it.  A run that
    makes a call for the artifact store has a non-empty [Server]; and
    after a successful local write with the transparency-log step skipped
    or successful, the artifact store is dialed exactly when [Server] is
    non-empty. *)
Theorem archivist_enable_flag_unread w ro args :
  (forall a st,
     Server a = Server (ro_ArchivistOptions ro) ->
     runRun w (withArchivist ro a) args st = runRun w ro args st)
  /\ (archivistAttempted (trace (snd (runRun w ro args initial))) = true ->
      Server (ro_ArchivistOptions ro) <> EmptyString)
  /\ (forall signer signedBytes,
        writesEnvelope w ro args signer signedBytes ->
        rekorFails w ro signer signedBytes = false ->
        archivistAttempted (trace (snd (runRun w ro args initial)))
        = negb (String.eqb (Server (ro_ArchivistOptions ro)) "")).
Proof.
  split; [|split].
  - intros a st Hsame.
    unfold runRun, runRunWith, publishArchivist, publishRekor,
      storeInArchivist, withArchivist.
    cbn [ro_KeyOptions ro_ArchivistOptions WorkingDir Attestations
         OutFilePath StepName Tracing TimestampServers RekorServer].
    rewrite Hsame. reflexivity.
  - intros Hatt Hoff. rewrite (runRun_no_archivist _ _ _ Hoff) in Hatt.
    discriminate.
  - intros signer signedBytes Hw Hf.
    rewrite (runRun_written_attempted _ _ _ _ _ Hw), Hf. reflexivity.
Qed.

Lemma archivist_enable_flag_unread_witness :
  runRun (Demo.world Demo.rekorUp Demo.conn)
         (withArchivist
            (Demo.options Demo.oneLoads "" "" "archivist:8080")
            (mkArchivistOptions true "" "archivist:8080"))
         Demo.command initial
  = runRun (Demo.world Demo.rekorUp Demo.conn)
           (Demo.options Demo.oneLoads "" "" "archivist:8080")
           Demo.command initial.
Proof.
  exact (proj1 (archivist_enable_flag_unread
                  (Demo.world Demo.rekorUp Demo.conn)
                  (Demo.options Demo.oneLoads "" "" "archivist:8080")
                  Demo.command)
               (mkArchivistOptions true "" "archivist:8080") initial
               eq_refl).
Defined.

(** With the flag off and the endpoint set the upload is made; with the
    flag on and no endpoint it is not. *)
Example enable_flag_has_no_say :
  let w := Demo.world Demo.rekorUp Demo.conn in
  let ro := Demo.options Demo.oneLoads "" "" "" in
  archivistAttempted
    (trace (snd (runRun w (withArchivist ro (mkArchivistOptions false ""
                                               "archivist:8080"))
                        Demo.command initial))) = true
  /\ archivistAttempted
       (trace (snd (runRun w (withArchivist ro (mkArchivistOptions true
                                                  "https://archivist" ""))
                           Demo.command initial))) = false.
Proof. vm_compute. split; reflexivity. Qed.

(** ** Every run comes to an end *)

Lemma publishArchivist_total w ro signedBytes st :
  fst (publishArchivist w ro signedBytes st) <> OutOfFuel.
Proof.
  unfold publishArchivist.
  destruct (String.eqb (Server (ro_ArchivistOptions ro)) "");
    [discriminate|].
  cbn [negb]. unfold bind, mapErr.
  pose proof (storeInArchivist_total w (ro_ArchivistOptions ro) signedBytes st)
    as T.
  destruct (storeInArchivist w (ro_ArchivistOptions ro) signedBytes st)
    as [[g| | |] st2]; cbn [fst] in *; try discriminate.
  congruence.
Qed.

Lemma runRunWith_total w ro args signer st :
  fst (runRunWith w ro args signer st) <> OutOfFuel.
Proof.
  unfold runRunWith.
  unfold bind at 1, emit. unfold bind at 1.
  destruct (loadOutfile w (OutFilePath ro)) as [out|e]; cbn [check];
    [|discriminate].
  unfold ret at 1, defer, fileClose, emit.
  unfold bind at 1. unfold bind at 1.
  destruct (witnessRun w _ _ _ _ _ _) as [result|e]; cbn [check];
    [|discriminate].
  unfold ret at 1. unfold bind at 1.
  destruct (jsonMarshal w (SignedEnvelope result)) as [signedBytes|e];
    cbn [check]; [|discriminate].
  unfold ret at 1. unfold bind at 1, fileWrite.
  destruct (Write out signedBytes) as [n [e|]]; [discriminate|].
  unfold bind.
  match goal with
  | |- context [publishRekor w ro signer signedBytes ?st] =>
      destruct (publishRekor_cases w ro signer signedBytes st)
        as (t & _ & _ & Hres);
      destruct (publishRekor w ro signer signedBytes st) as [[[]| | |] st2]
  end; cbn [fst] in *; try discriminate.
  - pose proof (publishArchivist_total w ro signedBytes st2) as T.
    destruct (publishArchivist w ro signedBytes st2) as [r st3].
    exact T.
  - destruct (rekorFails w ro signer signedBytes);
      [destruct Hres as [e Hres]|]; discriminate.
Qed.

(** [runRun] never runs out of fuel: the bound given to the upload loop
    is enough on every input. *)
Lemma runRun_total w ro args st : fst (runRun w ro args st) <> OutOfFuel.
Proof.
  rewrite runRun_unfold.
  destruct (loadSigners w (ro_KeyOptions ro)) as [signers [|e errors]];
    [|discriminate].
  destruct signers as [|s [|s' r]]; try discriminate.
  apply runRunWith_total.
Qed.

(** ** The upload as a composition: cut, send, close *)

(** Within the range where [curr + chunkSize] cannot wrap, the loop is
    [sendAll] on the partition of the bytes from [curr] on, whatever the
    stream does. *)
Lemma sendChunks_sendAll stream (signedBytes : list byte) :
  len signedBytes + chunkSize <= maxInt ->
  forall fuel curr st,
    0 <= curr ->
    (List.length (dropZ curr signedBytes) < fuel)%nat ->
    sendChunks fuel stream signedBytes (len signedBytes) curr st
    = sendAll stream (partition (dropZ curr signedBytes)) st.
Proof.
  intros Hmax.
  induction fuel as [|fuel IH]; intros curr st Hcurr Hfuel; [lia|].
  destruct (Z_lt_ge_dec curr (len signedBytes)) as [Hlt|Hge].
  - destruct (sendChunks_frame_cut signedBytes curr) as [Eadd Ecut];
      [lia | exact Hmax |].
    cbn [sendChunks].
    destruct (Z.ltb_spec curr (len signedBytes)); [|lia].
    unfold bind at 1. rewrite Ecut. unfold ret at 1. rewrite Eadd.
    assert (Hcs : 0 <= chunkSize) by golia.
    pose proof (dropZ_dropZ chunkSize curr signedBytes Hcs Hcurr) as Hdd.
    replace (chunkSize + curr) with (curr + chunkSize) in Hdd by lia.
    destruct (dropZ curr signedBytes) as [|x r] eqn:Erest.
    { apply dropZ_nil_len in Erest; lia. }
    rewrite (partition_cons x r). cbn [sendAll]. unfold bind.
    destruct (streamSend stream _ st) as [[[e|]| | |] st1]; try reflexivity.
    rewrite Hdd. apply IH; [lia|].
    rewrite <- Hdd. pose proof (length_dropZ_chunk x r).
    cbn [List.length] in Hfuel. lia.
  - rewrite sendChunks_stop by lia.
    rewrite dropZ_all by lia. reflexivity.
Qed.

(** What [sendAll] leaves, by the way it ends. *)
Lemma sendAll_cases stream : forall fs st,
  match fst (sendAll stream fs st) with
  | Ok _ =>
      snd (sendAll stream fs st)
      = mkState (trace st ++ sends fs) (sink st)
                (sent st ++ map mkChunk fs)
  | Err e =>
      exists k f s,
        stream = Some s
        /\ nth_error fs k = Some f
        /\ Send s (sent st ++ map mkChunk (firstn k fs)) (mkChunk f) = Some e
        /\ snd (sendAll stream fs st)
           = mkState (trace st ++ sends (firstn (S k) fs)) (sink st)
                     (sent st ++ map mkChunk (firstn k fs))
  | Panic msg =>
      stream = None /\ fs <> [] /\ msg = nilDeref
      /\ snd (sendAll stream fs st) = st
  | OutOfFuel => False
  end.
Proof.
  induction fs as [|f r IH]; intros st.
  - cbn [sendAll]. unfold ret, sends. cbn [fst snd map].
    rewrite !app_nil_r. now destruct st.
  - cbn [sendAll]. unfold bind, streamSend.
    destruct stream as [s|].
    2:{ cbn [fst snd]. repeat split. discriminate. }
    destruct (Send s (sent st) (mkChunk f)) as [e|] eqn:Es.
    + unfold fail, record. cbn [fst snd].
      exists 0%nat, f, s. cbn [nth_error firstn map sends].
      rewrite app_nil_r. repeat split. exact Es.
    + specialize (IH (mkState (trace st ++ [EvSend (mkChunk f)]) (sink st)
                              (sent st ++ [mkChunk f]))).
      destruct (sendAll (Some s) r _) as [[[]|e| |] st2];
        cbn [fst snd trace sink sent] in *.
      * rewrite IH. unfold sends. cbn [map]. now rewrite <- !app_assoc.
      * destruct IH as (k & g & s' & Hs & Hk & Hsend & Hst).
        exists (S k), g, s'. cbn [nth_error firstn map].
        rewrite <- !app_assoc in Hsend. rewrite <- !app_assoc in Hst.
        repeat split; assumption.
      * destruct IH as (Hs & _). discriminate.
      * exact IH.
Qed.

Lemma storeInArchivist_sendAll w opts (payload : list byte) st conn :
  len payload + chunkSize <= maxInt ->
  grpcDial w (Server opts) = Success conn ->
  storeInArchivist w opts payload st
  = (sendAll (fst (Store conn)) (partition payload) ;;
     resp <- streamCloseAndRecv (fst (Store conn)) ;;
     match resp with
     | Failure err => fail err
     | Success resp => ret (GetGitoid resp)
     end)
      (mkState (trace st ++ [EvDial (Server opts); EvStore]) (sink st) []).
Proof.
  intros Hmax Hd. rewrite (storeInArchivist_dialed _ _ _ _ _ Hd).
  unfold bind at 1 3.
  rewrite (sendChunks_sendAll _ _ Hmax);
    [| lia | rewrite (dropZ_nonpos 0) by lia; lia].
  rewrite (dropZ_nonpos 0) by lia. reflexivity.
Qed.

(** X1. When [grpc.Dial] fails the upload returns that error as it is;
    the dial is the only call: no session is opened, nothing is sent or
    awaited, and the state is otherwise untouched. *)
Theorem upload_dial_failure w opts payload st e :
  grpcDial w (Server opts) = Failure e ->
  storeInArchivist w opts payload st
  = (Err e,
     mkState (trace st ++ [EvDial (Server opts)]) (sink st) (sent st)).
Proof. intros H. now rewrite (storeInArchivist_dial_failed _ _ _ _ _ H). Qed.

(** X2. The upload is a composition: for a payload within the range of
    [int], once dialed, [storeInArchivist] opens the session, sends the
    frames of the partition in order up to the first one refused, then
    calls [CloseAndRecv] and returns the identifier of the response or
    its error.  The index arithmetic of the loop adds nothing to that. *)
Theorem upload_is_cut_send_close w opts (payload : list byte) st conn :
  len payload + chunkSize <= maxInt ->
  grpcDial w (Server opts) = Success conn ->
  storeInArchivist w opts payload st
  = (sendAll (fst (Store conn)) (partition payload) ;;
     resp <- streamCloseAndRecv (fst (Store conn)) ;;
     match resp with
     | Failure err => fail err
     | Success resp => ret (GetGitoid resp)
     end)
      (mkState (trace st ++ [EvDial (Server opts); EvStore]) (sink st) []).
Proof. exact (storeInArchivist_sendAll w opts payload st conn). Qed.

(** A stream that takes the first [k] frames and refuses frame [k]. *)
Lemma sendAll_refused s e : forall fs k f st,
  nth_error fs k = Some f ->
  (forall j g, (j < k)%nat -> nth_error fs j = Some g ->
               Send s (sent st ++ map mkChunk (firstn j fs)) (mkChunk g)
               = None) ->
  Send s (sent st ++ map mkChunk (firstn k fs)) (mkChunk f) = Some e ->
  sendAll (Some s) fs st
  = (Err e,
     mkState (trace st ++ sends (firstn (S k) fs)) (sink st)
             (sent st ++ map mkChunk (firstn k fs))).
Proof.
  induction fs as [|f0 r IH]; intros k f st Hk Hbefore Hrefused.
  - destruct k; discriminate.
  - cbn [sendAll]. unfold bind, streamSend. destruct k as [|k].
    + cbn [nth_error] in Hk. injection Hk as ->.
      cbn [firstn map] in Hrefused. rewrite app_nil_r in Hrefused.
      rewrite Hrefused. unfold fail, record, sends.
      cbn [firstn map]. now rewrite app_nil_r.
    + pose proof (Hbefore 0%nat f0 ltac:(lia) eq_refl) as H0.
      cbn [firstn map] in H0. rewrite app_nil_r in H0. rewrite H0.
      cbn [nth_error] in Hk.
      rewrite (IH k f _ Hk).
      * unfold sends. cbn [trace sink sent firstn map].
        now rewrite <- !app_assoc.
      * intros j g Hj Hg. cbn [sent]. rewrite <- app_assoc.
        apply (Hbefore (S j) g); [lia | exact Hg].
      * cbn [sent]. rewrite <- app_assoc. exact Hrefused.
Qed.

(** X3. The first refused frame ends the upload.  When the stream takes
    the first [k] frames of the partition and refuses frame [k] with an
    error, the upload returns that error; the frames delivered are the
    first [k]; frame [k] is the last one sent, nothing is sent again and
    [CloseAndRecv] is not called. *)
Theorem upload_stops_at_refused_frame
        w opts (payload : list byte) st conn s eopen k f e :
  len payload + chunkSize <= maxInt ->
  grpcDial w (Server opts) = Success conn ->
  Store conn = (Some s, eopen) ->
  nth_error (partition payload) k = Some f ->
  (forall j g, (j < k)%nat -> nth_error (partition payload) j = Some g ->
               Send s (map mkChunk (firstn j (partition payload)))
                    (mkChunk g) = None) ->
  Send s (map mkChunk (firstn k (partition payload))) (mkChunk f) = Some e ->
  storeInArchivist w opts payload st
  = (Err e,
     mkState (trace st ++ [EvDial (Server opts); EvStore]
                       ++ sends (firstn (S k) (partition payload)))
             (sink st)
             (map mkChunk (firstn k (partition payload)))).
Proof.
  intros Hmax Hd Hs Hk Hbefore Hrefused.
  rewrite (storeInArchivist_sendAll _ _ _ _ _ Hmax Hd), Hs. cbn [fst].
  unfold bind at 1.
  rewrite (sendAll_refused s e (partition payload) k f _ Hk);
    [| exact Hbefore | exact Hrefused ].
  cbn [trace sink sent app]. now rewrite <- app_assoc.
Qed.

Lemma upload_stops_at_refused_frame_witness :
  storeInArchivist (Demo.world Demo.rekorUp Demo.deafConn) Demo.archivist
                   Demo.hello initial
  = (Err (errorString "EOF"),
     mkState [EvDial "archivist:8080"; EvStore; EvSend (mkChunk Demo.hello)]
             [] []).
Proof.
  apply (upload_stops_at_refused_frame
           (Demo.world Demo.rekorUp Demo.deafConn) Demo.archivist Demo.hello
           initial Demo.deafConn Demo.deafStream
           (Some (errorString "no route to host")) 0 Demo.hello
           (errorString "EOF")).
  - vm_compute. discriminate.
  - reflexivity.
  - reflexivity.
  - reflexivity.
  - intros j g Hj. lia.
  - reflexivity.
Defined.

Lemma upload_dial_failure_witness :
  storeInArchivist Demo.offline Demo.archivist Demo.hello initial
  = (Err (errorString "bad target"),
     mkState [EvDial "archivist:8080"] [] []).
Proof.
  exact (upload_dial_failure Demo.offline Demo.archivist Demo.hello initial
                             (errorString "bad target") eq_refl).
Defined.

Lemma upload_is_cut_send_close_witness :
  fst (storeInArchivist Demo.healthy Demo.archivist Demo.hello initial)
  = Ok Demo.gitoid.
Proof.
  rewrite (upload_is_cut_send_close Demo.healthy Demo.archivist Demo.hello
                                    initial Demo.conn);
    [reflexivity | vm_compute; discriminate | reflexivity].
Defined.

Lemma filter_isSend_sends fs : filter isSend (sends fs) = sends fs.
Proof.
  induction fs as [|f fs IH]; [reflexivity|].
  unfold sends in *. cbn [map filter isSend]. now rewrite IH.
Qed.

Lemma sends_no_CloseAndRecv fs : existsb isCloseAndRecv (sends fs) = false.
Proof.
  induction fs as [|f fs IH]; [reflexivity|].
  unfold sends in *. cbn [map existsb isCloseAndRecv]. exact IH.
Qed.

Lemma length_sends fs : List.length (sends fs) = List.length fs.
Proof. unfold sends. now rewrite !length_map. Qed.

(** X4. Whatever the stream does, the frames delivered by an upload are
    a prefix of the partition of the payload, in order; [CloseAndRecv] is
    called only when all of them were delivered, and at most one frame
    more than were delivered was sent. *)
Theorem upload_delivers_prefix w opts (payload : list byte) :
  len payload + chunkSize <= maxInt ->
  exists k,
    framesSent w opts payload initial = firstn k (partition payload)
    /\ (existsb isCloseAndRecv
          (trace (snd (storeInArchivist w opts payload initial))) = true ->
        framesSent w opts payload initial = partition payload)
    /\ (List.length
          (filter isSend
                  (trace (snd (storeInArchivist w opts payload initial))))
        <= S (List.length (framesSent w opts payload initial)))%nat.
Proof.
  intros Hmax. unfold framesSent.
  destruct (grpcDial w (Server opts)) as [conn|e] eqn:Hd.
  2:{ rewrite (storeInArchivist_dial_failed _ _ _ _ _ Hd).
      exists 0%nat. cbn. repeat split; [discriminate | lia]. }
  pose proof (storeInArchivist_sendAll w opts payload initial conn Hmax Hd)
    as E.
  unfold bind in E.
  match type of E with
  | context [sendAll ?str ?fs ?st0] =>
      pose proof (sendAll_cases str fs st0) as C;
      destruct (sendAll str fs st0) as [r st1]
  end.
  cbn [fst snd trace sink sent initial app] in C.
  destruct r as [[]|e| |].
  - subst st1. exists (List.length (partition payload)).
    rewrite firstn_all.
    unfold streamCloseAndRecv in E.
    destruct (fst (Store conn)) as [s|];
      [destruct (CloseAndRecv s _)|];
      unfold ret, fail, record in E; cbn [snd trace sent sink] in E;
      rewrite E; cbn [snd trace sent];
      rewrite chunk_mkChunk;
      (split; [reflexivity|]); (split; [reflexivity|]);
      rewrite ?filter_app; cbn [filter isSend];
      rewrite filter_isSend_sends;
      rewrite ?length_app, length_sends; cbn [List.length]; lia.
  - rewrite E. destruct C as (k & f & s & _ & Hk & _ & ->).
    exists k. cbn [snd trace sent]. rewrite chunk_mkChunk.
    split; [reflexivity|]. split.
    + cbn [existsb isCloseAndRecv orb]. rewrite sends_no_CloseAndRecv.
      discriminate.
    + cbn [filter isSend]. rewrite filter_isSend_sends, length_sends.
      rewrite !length_firstn. lia.
  - rewrite E. destruct C as (_ & _ & _ & ->).
    exists 0%nat. cbn. repeat split; [discriminate | lia].
  - contradiction.
Qed.

Lemma upload_delivers_prefix_witness :
  exists k,
    framesSent (Demo.world Demo.rekorUp Demo.deafConn) Demo.archivist
               Demo.hello initial
    = firstn k (partition Demo.hello).
Proof.
  destruct (upload_delivers_prefix (Demo.world Demo.rekorUp Demo.deafConn)
                                   Demo.archivist Demo.hello)
    as (k & Hk & _).
  - vm_compute. discriminate.
  - exists k. exact Hk.
Defined.

(** X5. On a stream that takes every frame, the far end is asked for its
    response after it has received the whole partition of the payload,
    and the upload returns the identifier of that response; when
    [CloseAndRecv] fails the upload returns its error, all frames having
    been delivered. *)
Theorem upload_returns_identifier
        w opts (payload : list byte) st conn s eopen :
  len payload + chunkSize <= maxInt ->
  grpcDial w (Server opts) = Success conn ->
  Store conn = (Some s, eopen) ->
  (forall delivered c, Send s delivered c = None) ->
  fst (storeInArchivist w opts payload st)
  = match CloseAndRecv s (map mkChunk (partition payload)) with
    | Success resp => Ok (GetGitoid resp)
    | Failure err => Err err
    end
  /\ sent (snd (storeInArchivist w opts payload st))
     = map mkChunk (partition payload).
Proof.
  intros Hmax Hd Hs Hsend.
  rewrite (storeInArchivist_delivers _ _ _ _ _ _ _ Hmax Hd Hs Hsend).
  split; reflexivity.
Qed.

Lemma upload_returns_identifier_witness :
  fst (storeInArchivist Demo.healthy Demo.archivist Demo.hello initial)
  = Ok Demo.gitoid.
Proof.
  exact (proj1 (upload_returns_identifier
                  Demo.healthy Demo.archivist Demo.hello initial Demo.conn
                  Demo.stream None
                  ltac:(vm_compute; discriminate) eq_refl eq_refl
                  (fun _ _ => eq_refl))).
Defined.

(** X6. For a payload within the range of [int] the slicing of the loop
    never goes out of bounds: the only panic of an upload is the method
    call on a nil stream, after a successful dial. *)
Theorem upload_panics_only_on_nil_stream w opts (payload : list byte) st msg :
  len payload + chunkSize <= maxInt ->
  fst (storeInArchivist w opts payload st) = Panic msg ->
  msg = nilDeref
  /\ exists conn,
       grpcDial w (Server opts) = Success conn /\ fst (Store conn) = None.
Proof.
  intros Hmax.
  destruct (grpcDial w (Server opts)) as [conn|e] eqn:Hd.
  2:{ rewrite (storeInArchivist_dial_failed _ _ _ _ _ Hd). discriminate. }
  rewrite (storeInArchivist_sendAll _ _ _ _ _ Hmax Hd).
  unfold bind at 1.
  match goal with
  | |- context [sendAll ?str ?fs ?st0] =>
      pose proof (sendAll_cases str fs st0) as C;
      destruct (sendAll str fs st0) as [r st1]
  end.
  cbn [fst] in C. destruct r as [[]|e| |]; cbn [fst]; try discriminate.
  - unfold bind, streamCloseAndRecv.
    destruct (fst (Store conn)) as [s|] eqn:Hstream.
    + destruct (CloseAndRecv s (sent st1)); discriminate.
    + cbn [fst]. intros [= <-]. split; [reflexivity|].
      exists conn. split; [reflexivity | exact Hstream].
  - destruct C as (Hnil & _ & -> & _). intros [= <-].
    split; [reflexivity|]. exists conn. split; [reflexivity | exact Hnil].
Qed.

Lemma upload_panics_only_on_nil_stream_witness :
  nilDeref = nilDeref
  /\ exists conn,
       grpcDial (Demo.world Demo.rekorUp Demo.noStream)
                (Server Demo.archivist) = Success conn
       /\ fst (Store conn) = None.
Proof.
  exact (upload_panics_only_on_nil_stream
           (Demo.world Demo.rekorUp Demo.noStream) Demo.archivist Demo.hello
           initial nilDeref ltac:(vm_compute; discriminate) eq_refl).
Defined.

(** ** The paths of a run *)

Lemma sendChunks_calls stream (signedBytes : list byte) size :
  forall fuel curr st,
  exists t,
    trace (snd (sendChunks fuel stream signedBytes size curr st))
    = trace st ++ t
    /\ forallb isPublishCall t = true.
Proof.
  induction fuel as [|fuel IH]; intros curr st.
  - exists []. cbn [sendChunks snd]. now rewrite app_nil_r.
  - cbn [sendChunks]. destruct (curr <? size).
    2:{ exists []. unfold ret. cbn [snd]. now rewrite app_nil_r. }
    unfold bind.
    destruct (intAdd curr chunkSize >=? size);
      (match goal with
       | |- context [orPanic ?o _] => destruct o as [c|]
       end; cbn [orPanic]; unfold ret, panic;
       [| exists []; cbn [snd]; now rewrite app_nil_r];
       unfold streamSend; destruct stream as [s|];
       [| exists []; cbn [snd]; now rewrite app_nil_r];
       destruct (Send s (sent st) (mkChunk c)) as [e|];
       [ exists [EvSend (mkChunk c)]; split; reflexivity
       | match goal with
         | |- context [sendChunks fuel ?str ?b ?n ?c' ?st1] =>
             destruct (IH c' st1) as (t & Ht & Hp)
         end;
         exists (EvSend (mkChunk c) :: t); rewrite Ht;
         cbn [trace forallb isPublishCall isNetworkCall andb];
         rewrite <- app_assoc; split; [reflexivity | exact Hp] ]).
Qed.

Lemma storeInArchivist_calls w opts signedBytes st :
  exists t,
    trace (snd (storeInArchivist w opts signedBytes st)) = trace st ++ t
    /\ forallb isPublishCall t = true.
Proof.
  destruct (grpcDial w (Server opts)) as [conn|e] eqn:Hd.
  - rewrite (storeInArchivist_dialed _ _ _ _ _ Hd). unfold bind at 1.
    match goal with
    | |- context [sendChunks ?f ?s ?b ?n ?c ?st0] =>
        destruct (sendChunks_calls s b n f c st0) as (t & Ht & Hp);
        destruct (sendChunks f s b n c st0) as [[[]| | |] st2]
    end; cbn [snd trace] in *;
      try (exists (EvDial (Server opts) :: EvStore :: t); rewrite Ht;
           rewrite <- app_assoc; split; [reflexivity | exact Hp]).
    unfold bind, streamCloseAndRecv.
    destruct (fst (Store conn)) as [s|].
    + exists (EvDial (Server opts) :: EvStore :: t ++ [EvCloseAndRecv]).
      split.
      * destruct (CloseAndRecv s (sent st2)); unfold ret, fail, record;
          cbn [snd trace]; rewrite Ht; now rewrite <- !app_assoc.
      * cbn [forallb isPublishCall isNetworkCall andb].
        rewrite forallb_app, Hp. reflexivity.
    + exists (EvDial (Server opts) :: EvStore :: t). cbn [snd]. rewrite Ht.
      rewrite <- app_assoc. split; [reflexivity | exact Hp].
  - rewrite (storeInArchivist_dial_failed _ _ _ _ _ Hd).
    exists [EvDial (Server opts)]. split; reflexivity.
Qed.

Lemma publishRekor_calls w ro signer signedBytes st :
  exists t,
    snd (publishRekor w ro signer signedBytes st)
    = mkState (trace st ++ t) (sink st) (sent st)
    /\ forallb isPublishCall t = true.
Proof.
  unfold publishRekor.
  destruct (String.eqb (RekorServer ro) "").
  { exists []. cbn [negb]. unfold ret. cbn [snd].
    rewrite app_nil_r. split; [now destruct st | reflexivity]. }
  cbn [negb]. unfold logInfof, bind, check, emit, ret, fail, record.
  destruct (GetVerifier signer) as [v|e].
  2:{ exists []. rewrite app_nil_r. cbn [snd].
      split; [now destruct st | reflexivity]. }
  destruct (Bytes v) as [k|e].
  2:{ exists []. rewrite app_nil_r. cbn [snd].
      split; [now destruct st | reflexivity]. }
  destruct (rekorNew w (RekorServer ro)) as [rc|e];
    [destruct (StoreArtifact rc signedBytes k) as [loc|e]|];
    (eexists; split;
     [ cbn [snd trace sink sent]; rewrite <- ?app_assoc; reflexivity
     | reflexivity ]).
Qed.

Lemma publishArchivist_calls w ro signedBytes st :
  exists t,
    trace (snd (publishArchivist w ro signedBytes st)) = trace st ++ t
    /\ forallb isPublishCall t = true.
Proof.
  unfold publishArchivist.
  destruct (String.eqb (Server (ro_ArchivistOptions ro)) "").
  { exists []. cbn [negb]. unfold ret. cbn [snd]. now rewrite app_nil_r. }
  cbn [negb]. unfold bind, mapErr.
  destruct (storeInArchivist_calls w (ro_ArchivistOptions ro) signedBytes st)
    as (t & Ht & Hp).
  destruct (storeInArchivist w (ro_ArchivistOptions ro) signedBytes st)
    as [[g| | |] st2]; cbn [snd] in *;
    try (exists t; split; [exact Ht | exact Hp]).
  eexists (t ++ [_]). unfold logInfof, emit, record. cbn [snd trace].
  rewrite Ht, <- app_assoc. split; [reflexivity|].
  rewrite forallb_app, Hp. reflexivity.
Qed.

(** The two publishing steps only call the network and log, and leave
    the sink alone. *)
Lemma published_calls w ro signer signedBytes st :
  exists pubs,
    trace (snd ((publishRekor w ro signer signedBytes ;;
                 publishArchivist w ro signedBytes) st))
    = trace st ++ pubs
    /\ forallb isPublishCall pubs = true.
Proof.
  unfold bind.
  destruct (publishRekor_calls w ro signer signedBytes st) as (t & Hst & Hp).
  destruct (publishRekor w ro signer signedBytes st) as [[[]| | |] st2];
    cbn [snd] in Hst; subst st2;
    try (exists t; split; [reflexivity | exact Hp]).
  destruct (publishArchivist_calls w ro signedBytes
              (mkState (trace st ++ t) (sink st) (sent st)))
    as (t' & Ht' & Hp').
  exists (t ++ t'). rewrite Ht'. cbn [trace]. rewrite <- app_assoc.
  split; [reflexivity|]. rewrite forallb_app, Hp, Hp'. reflexivity.
Qed.

(** Every run takes one of the paths. *)
Lemma runRun_path w ro args : RunPath w ro args (runRun w ro args initial).
Proof.
  rewrite runRun_unfold.
  destruct (loadSigners w (ro_KeyOptions ro)) as [signers [|e0 errors]]
    eqn:Hload.
  2:{ exact (PathLoadFailed w ro args signers e0 errors Hload). }
  destruct signers as [|signer [|s' r]].
  { exact (PathNoSigner w ro args Hload). }
  2:{ exact (PathManySigners w ro args signer s' r Hload). }
  unfold runRunWith.
  unfold bind at 1, emit. unfold bind at 1.
  destruct (loadOutfile w (OutFilePath ro)) as [out|e] eqn:Hout; cbn [check].
  2:{ exact (PathNoFile w ro args signer e Hload Hout). }
  unfold ret at 1, defer, fileClose, emit.
  unfold bind at 1. unfold bind at 1.
  destruct (witnessRun w _ _ _ _ _ _) as [result|e] eqn:Hrun; cbn [check].
  2:{ exact (PathRunFailed w ro args signer out e Hload Hout Hrun). }
  unfold ret at 1. unfold bind at 1.
  destruct (jsonMarshal w (SignedEnvelope result)) as [signedBytes|e]
    eqn:Hjson; cbn [check].
  2:{ exact (PathMarshalFailed w ro args signer out result e
                               Hload Hout Hrun Hjson). }
  unfold ret at 1. unfold bind at 1, fileWrite.
  destruct (Write out signedBytes) as [n [e|]] eqn:Hwrite.
  { exact (PathWriteFailed w ro args signer out result signedBytes n e
                           Hload Hout Hrun Hjson Hwrite). }
  match goal with
  | |- context [(publishRekor w ro signer signedBytes ;; ?k) ?st0] =>
      destruct (published_calls w ro signer signedBytes st0)
        as (pubs & Ht & Hp);
      pose proof (published_sink w ro signer signedBytes st0) as Hs;
      destruct ((publishRekor w ro signer signedBytes ;; k) st0)
        as [r [t2 s2 d2]]
  end.
  cbn [snd trace sink] in *. subst t2 s2. unfold record. cbn [trace sink sent].
  rewrite <- !app_assoc.
  exact (PathPublished w ro args signer out result signedBytes n r pubs d2
                       Hload Hout Hrun Hjson Hwrite Hp).
Qed.

Lemma filter_none (P Q : Event -> bool) t :
  forallb P t = true ->
  (forall e, P e = true -> Q e = false) ->
  filter Q t = [].
Proof.
  intros Hall HPQ. induction t as [|e t IH]; [reflexivity|].
  cbn [forallb] in Hall. apply andb_prop in Hall. destruct Hall as [He Ht].
  cbn [filter]. rewrite (HPQ e He). exact (IH Ht).
Qed.

Lemma filter_loggedErrors (Q : Event -> bool) errors :
  (forall lvl msg, Q (EvLog lvl msg) = false) ->
  filter Q (loggedErrors errors) = [].
Proof.
  intros HQ. induction errors as [|e errors IH]; [reflexivity|].
  cbn [loggedErrors map filter]. rewrite HQ. exact IH.
Qed.

Lemma publishCall_not_close e : isPublishCall e = true -> isClose e = false.
Proof. destruct e; cbn; congruence. Qed.

Lemma publishCall_not_run e :
  isPublishCall e = true -> isWitnessRun e = false.
Proof. destruct e; cbn; congruence. Qed.

Lemma publishCall_not_write e : isPublishCall e = true -> isWrite e = false.
Proof. destruct e; cbn; congruence. Qed.

(** X7. A failure of [witness.Run] is returned as it is, not wrapped;
    nothing is written to the sink, no publishing step is entered, and
    the output file, which was opened before, is closed. *)
Theorem execution_failure_returned_verbatim w ro args signer out e :
  loadSigners w (ro_KeyOptions ro) = ([signer], []) ->
  loadOutfile w (OutFilePath ro) = Success out ->
  witnessRun w (StepName ro) signer (Tracing ro) args (Attestations ro)
             (WorkingDir ro) = Failure e ->
  runRun w ro args initial
  = (Err e,
     mkState [EvLoadOutfile (OutFilePath ro);
              EvWitnessRun (StepName ro) signer (Tracing ro) args
                           (Attestations ro) (WorkingDir ro);
              EvClose] [] []).
Proof.
  intros Hload Hout Hrun. rewrite runRun_unfold, Hload. unfold runRunWith.
  unfold bind at 1, emit. unfold bind at 1. rewrite Hout. cbn [check].
  unfold ret at 1, defer, fileClose, emit.
  unfold bind at 1. unfold bind at 1. rewrite Hrun. reflexivity.
Qed.

(** X8. When the envelope cannot be marshalled the run fails with the
    error wrapped as "failed to marshal envelope"; nothing is written,
    nothing is published, the file is closed. *)
Theorem marshal_failure_stops_run w ro args signer out result e :
  loadSigners w (ro_KeyOptions ro) = ([signer], []) ->
  loadOutfile w (OutFilePath ro) = Success out ->
  witnessRun w (StepName ro) signer (Tracing ro) args (Attestations ro)
             (WorkingDir ro) = Success result ->
  jsonMarshal w (SignedEnvelope result) = Failure e ->
  runRun w ro args initial
  = (Err (wrapError "failed to marshal envelope" e),
     mkState [EvLoadOutfile (OutFilePath ro);
              EvWitnessRun (StepName ro) signer (Tracing ro) args
                           (Attestations ro) (WorkingDir ro);
              EvClose] [] []).
Proof.
  intros Hload Hout Hrun Hjson. rewrite runRun_unfold, Hload.
  unfold runRunWith.
  unfold bind at 1, emit. unfold bind at 1. rewrite Hout. cbn [check].
  unfold ret at 1, defer, fileClose, emit.
  unfold bind at 1. unfold bind at 1. rewrite Hrun. cbn [check].
  unfold ret at 1. unfold bind at 1. rewrite Hjson. reflexivity.
Qed.

(** X9. When [Write] returns an error the run fails with it wrapped as
    "failed to write envelope to out file" and enters no publishing
    step; the bytes that [Write] did write stay in the sink, and the file
    is closed. *)
Theorem write_failure_stops_run w ro args signer out result signedBytes n e :
  loadSigners w (ro_KeyOptions ro) = ([signer], []) ->
  loadOutfile w (OutFilePath ro) = Success out ->
  witnessRun w (StepName ro) signer (Tracing ro) args (Attestations ro)
             (WorkingDir ro) = Success result ->
  jsonMarshal w (SignedEnvelope result) = Success signedBytes ->
  Write out signedBytes = (n, Some e) ->
  runRun w ro args initial
  = (Err (wrapError "failed to write envelope to out file" e),
     mkState (callsToWrite ro args signer signedBytes ++ [EvClose])
             (takeZ n signedBytes) []).
Proof.
  intros Hload Hout Hrun Hjson Hwrite. rewrite runRun_unfold, Hload.
  unfold runRunWith.
  unfold bind at 1, emit. unfold bind at 1. rewrite Hout. cbn [check].
  unfold ret at 1, defer, fileClose, emit.
  unfold bind at 1. unfold bind at 1. rewrite Hrun. cbn [check].
  unfold ret at 1. unfold bind at 1. rewrite Hjson. cbn [check].
  unfold ret at 1. unfold bind at 1, fileWrite. rewrite Hwrite.
  reflexivity.
Qed.

(** X10. The output file is closed exactly once in every run that opened
    it, as the last call of the run, whatever way the run ends; a run
    that did not open it never closes it. *)
Theorem output_file_closed_once w ro args :
  filter isClose (trace (snd (runRun w ro args initial)))
  = (if opensFile w ro then [EvClose] else [])
  /\ (opensFile w ro = true ->
      exists t, trace (snd (runRun w ro args initial)) = t ++ [EvClose]).
Proof.
  unfold opensFile.
  destruct (runRun_path w ro args)
    as [signers e errors Hload | Hload | s s' r Hload
        | signer e Hload Hout | signer out e Hload Hout Hrun
        | signer out result e Hload Hout Hrun Hjson
        | signer out result signedBytes n e Hload Hout Hrun Hjson Hwrite
        | signer out result signedBytes n r pubs delivered
                 Hload Hout Hrun Hjson Hwrite Hpubs];
    rewrite Hload; cbn [snd trace]; rewrite ?Hout.
  - destruct signers as [|? [|? ?]];
      (split; [apply filter_loggedErrors; reflexivity | discriminate]).
  - split; [reflexivity | discriminate].
  - split; [reflexivity | discriminate].
  - split; [reflexivity | discriminate].
  - split; [reflexivity|]. intros _. now eexists [_; _].
  - split; [reflexivity|]. intros _. now eexists [_; _].
  - split; [reflexivity|]. intros _. eexists. reflexivity.
  - split.
    + rewrite !filter_app.
      rewrite (filter_none isPublishCall isClose pubs Hpubs
                           publishCall_not_close).
      reflexivity.
    + intros _. exists (callsToWrite ro args signer signedBytes ++ pubs).
      now rewrite <- app_assoc.
Qed.

(** X11. A run calls [witness.Run] at most once and writes to the output
    file at most once. *)
Theorem one_execution_one_write w ro args :
  (List.length (filter isWitnessRun (trace (snd (runRun w ro args initial))))
   <= 1)%nat
  /\ (List.length (filter isWrite (trace (snd (runRun w ro args initial))))
      <= 1)%nat.
Proof.
  destruct (runRun_path w ro args)
    as [signers e errors Hload | Hload | s s' r Hload
        | signer e Hload Hout | signer out e Hload Hout Hrun
        | signer out result e Hload Hout Hrun Hjson
        | signer out result signedBytes n e Hload Hout Hrun Hjson Hwrite
        | signer out result signedBytes n r pubs delivered
                 Hload Hout Hrun Hjson Hwrite Hpubs];
    cbn [snd trace];
    try (split; cbn; lia).
  - rewrite !filter_loggedErrors by reflexivity. split; cbn; lia.
  - rewrite !filter_app.
    rewrite (filter_none isPublishCall isWitnessRun pubs Hpubs
                         publishCall_not_run).
    rewrite (filter_none isPublishCall isWrite pubs Hpubs
                         publishCall_not_write).
    split; cbn; lia.
Qed.

(** X12. Nothing is published that was not written first.  A run that
    makes a network call has resolved one signer, opened the file,
    executed, marshalled the envelope and written it without an error
    from [Write]; its calls are those up to the write, then network calls
    and log entries only, then [Close]; and the sink holds what [Write]
    wrote. *)
Theorem publishing_only_after_write w ro args :
  existsb isNetworkCall (trace (snd (runRun w ro args initial))) = true ->
  exists signer out result signedBytes n pubs,
    loadSigners w (ro_KeyOptions ro) = ([signer], [])
    /\ loadOutfile w (OutFilePath ro) = Success out
    /\ witnessRun w (StepName ro) signer (Tracing ro) args (Attestations ro)
                  (WorkingDir ro) = Success result
    /\ jsonMarshal w (SignedEnvelope result) = Success signedBytes
    /\ Write out signedBytes = (n, None)
    /\ trace (snd (runRun w ro args initial))
       = callsToWrite ro args signer signedBytes ++ pubs ++ [EvClose]
    /\ forallb isPublishCall pubs = true
    /\ sink (snd (runRun w ro args initial)) = takeZ n signedBytes.
Proof.
  destruct (runRun_path w ro args)
    as [signers e errors Hload | Hload | s s' r Hload
        | signer e Hload Hout | signer out e Hload Hout Hrun
        | signer out result e Hload Hout Hrun Hjson
        | signer out result signedBytes n e Hload Hout Hrun Hjson Hwrite
        | signer out result signedBytes n r pubs delivered
                 Hload Hout Hrun Hjson Hwrite Hpubs];
    cbn [snd trace sink]; try discriminate.
  - rewrite existsb_loggedErrors by reflexivity. discriminate.
  - intros _. exists signer, out, result, signedBytes, n, pubs.
    repeat split; assumption.
Qed.

Lemma execution_failure_returned_verbatim_witness :
  runRun Demo.failingRun Demo.publishing Demo.command initial
  = (Err (errorString "exit status 1"),
     mkState [EvLoadOutfile "";
              EvWitnessRun "build" Demo.signerA false Demo.command
                           ["environment"%string; "git"%string] "";
              EvClose] [] []).
Proof.
  exact (execution_failure_returned_verbatim
           Demo.failingRun Demo.publishing Demo.command Demo.signerA
           Demo.file (errorString "exit status 1") eq_refl eq_refl eq_refl).
Defined.

Lemma marshal_failure_stops_run_witness :
  runRun Demo.unmarshallable Demo.publishing Demo.command initial
  = (Err (wrapError "failed to marshal envelope"
                    (errorString "unsupported type")),
     mkState [EvLoadOutfile "";
              EvWitnessRun "build" Demo.signerA false Demo.command
                           ["environment"%string; "git"%string] "";
              EvClose] [] []).
Proof.
  exact (marshal_failure_stops_run
           Demo.unmarshallable Demo.publishing Demo.command Demo.signerA
           Demo.file (mkRunResult Demo.envelope)
           (errorString "unsupported type") eq_refl eq_refl eq_refl eq_refl).
Defined.

Lemma write_failure_stops_run_witness :
  runRun Demo.fullDisk Demo.publishing Demo.command initial
  = (Err (wrapError "failed to write envelope to out file"
                    (errorString "no space left on device")),
     mkState [EvLoadOutfile "";
              EvWitnessRun "build" Demo.signerA false Demo.command
                           ["environment"%string; "git"%string] "";
              EvWrite Demo.hello; EvClose]
             [x68; x65; x6c] []).
Proof.
  exact (write_failure_stops_run
           Demo.fullDisk Demo.publishing Demo.command Demo.signerA
           Demo.fullFile (mkRunResult Demo.envelope) Demo.hello 3
           (errorString "no space left on device")
           eq_refl eq_refl eq_refl eq_refl eq_refl).
Defined.

Lemma output_file_closed_once_witness :
  exists t,
    trace (snd (runRun Demo.noSession Demo.storing Demo.command initial))
    = t ++ [EvClose].
Proof.
  exact (proj2 (output_file_closed_once Demo.noSession Demo.storing
                                        Demo.command)
               eq_refl).
Defined.

Lemma publishing_only_after_write_witness :
  exists signer out result signedBytes n pubs,
    loadSigners Demo.logDown (ro_KeyOptions Demo.publishing) = ([signer], [])
    /\ loadOutfile Demo.logDown (OutFilePath Demo.publishing) = Success out
    /\ witnessRun Demo.logDown (StepName Demo.publishing) signer
                  (Tracing Demo.publishing) Demo.command
                  (Attestations Demo.publishing)
                  (WorkingDir Demo.publishing) = Success result
    /\ jsonMarshal Demo.logDown (SignedEnvelope result) = Success signedBytes
    /\ Write out signedBytes = (n, None)
    /\ trace (snd (runRun Demo.logDown Demo.publishing Demo.command initial))
       = callsToWrite Demo.publishing Demo.command signer signedBytes
         ++ pubs ++ [EvClose]
    /\ forallb isPublishCall pubs = true
    /\ sink (snd (runRun Demo.logDown Demo.publishing Demo.command initial))
       = takeZ n signedBytes.
Proof.
  exact (publishing_only_after_write Demo.logDown Demo.publishing
                                     Demo.command eq_refl).
Defined.

(** ** The publishing steps, case by case *)

Lemma publishRekor_succeeded
      w ro signer signedBytes st verifier pubKeyBytes rc location :
  RekorServer ro <> EmptyString ->
  GetVerifier signer = Success verifier ->
  Bytes verifier = Success pubKeyBytes ->
  rekorNew w (RekorServer ro) = Success rc ->
  StoreArtifact rc signedBytes pubKeyBytes = Success location ->
  publishRekor w ro signer signedBytes st
  = (Ok tt,
     mkState (trace st ++ [EvRekorNew (RekorServer ro);
                           EvStoreArtifact signedBytes pubKeyBytes;
                           EvLog LvlInfo
                                 ("Rekor entry added at " +++ RekorServer ro
                                  +++ location +++ newline)])
             (sink st) (sent st)).
Proof.
  intros Hon Hv Hb Hn Hs. unfold publishRekor.
  destruct (String.eqb_spec (RekorServer ro) ""); [congruence|].
  cbn [negb]. unfold logInfof, bind, emit, record. rewrite Hv. cbn [check].
  unfold ret at 1. rewrite Hb. cbn [check]. unfold ret at 1.
  rewrite Hn. cbn [check trace sink sent]. unfold ret at 1.
  rewrite Hs. cbn [check]. unfold ret.
  cbn [trace sink sent]. now rewrite <- !app_assoc.
Qed.

Lemma rekorFails_succeeded
      w ro signer signedBytes verifier pubKeyBytes rc location :
  GetVerifier signer = Success verifier ->
  Bytes verifier = Success pubKeyBytes ->
  rekorNew w (RekorServer ro) = Success rc ->
  StoreArtifact rc signedBytes pubKeyBytes = Success location ->
  rekorFails w ro signer signedBytes = false.
Proof.
  intros Hv Hb Hn Hs. unfold rekorFails, rekorStep.
  destruct (String.eqb (RekorServer ro) ""); [reflexivity|].
  now rewrite Hv, Hb, Hn, Hs.
Qed.

(** X13. With both endpoints configured and both destinations
    succeeding the run returns success.  The bytes written to the sink,
    the artifact submitted to the transparency log with the signer's
    public key, and the frames uploaded to the artifact store are the
    same marshalled envelope; the log's location and the store's
    identifier are each logged, and the file is closed last. *)
Theorem both_destinations_succeed
        w ro args signer signedBytes verifier pubKeyBytes rc location
        conn s eopen resp :
  writesEnvelope w ro args signer signedBytes ->
  RekorServer ro <> EmptyString ->
  GetVerifier signer = Success verifier ->
  Bytes verifier = Success pubKeyBytes ->
  rekorNew w (RekorServer ro) = Success rc ->
  StoreArtifact rc signedBytes pubKeyBytes = Success location ->
  Server (ro_ArchivistOptions ro) <> EmptyString ->
  len signedBytes + chunkSize <= maxInt ->
  grpcDial w (Server (ro_ArchivistOptions ro)) = Success conn ->
  Store conn = (Some s, eopen) ->
  (forall delivered c, Send s delivered c = None) ->
  CloseAndRecv s (map mkChunk (partition signedBytes)) = Success resp ->
  runRun w ro args initial
  = (Ok tt,
     mkState
       (callsToWrite ro args signer signedBytes
        ++ [EvRekorNew (RekorServer ro);
            EvStoreArtifact signedBytes pubKeyBytes;
            EvLog LvlInfo ("Rekor entry added at " +++ RekorServer ro
                           +++ location +++ newline)]
        ++ [EvDial (Server (ro_ArchivistOptions ro)); EvStore]
        ++ sends (partition signedBytes)
        ++ [EvCloseAndRecv;
            EvLog LvlInfo ("Stored in archivist as " +++ GetGitoid resp
                           +++ newline);
            EvClose])
       signedBytes
       (map mkChunk (partition signedBytes)))
  /\ List.concat (partition signedBytes) = signedBytes.
Proof.
  intros Hw Hron Hv Hb Hn Hs Haon Hmax Hd Hst Hsend Hclose.
  split; [|apply partition_concat].
  rewrite (runRun_written _ _ _ _ _ Hw). cbv zeta. unfold bind.
  rewrite (publishRekor_succeeded _ _ _ _ _ _ _ _ _ Hron Hv Hb Hn Hs).
  unfold publishArchivist.
  destruct (String.eqb_spec (Server (ro_ArchivistOptions ro)) "");
    [congruence|].
  cbn [negb]. unfold bind, mapErr.
  rewrite (storeInArchivist_delivers _ _ _ _ _ _ _ Hmax Hd Hst Hsend).
  rewrite Hclose. unfold logInfof, emit, record, sends.
  cbn [fst snd trace sink sent]. rewrite <- !app_assoc. reflexivity.
Qed.

Lemma both_destinations_succeed_witness :
  fst (runRun Demo.healthy Demo.publishing Demo.command initial) = Ok tt.
Proof.
  rewrite (proj1 (both_destinations_succeed
                    Demo.healthy Demo.publishing Demo.command Demo.signerA
                    Demo.hello (mkVerifier (Success [x01; x02])) [x01; x02]
                    Demo.rekorUp "/api/v1/log/entries/1" Demo.conn
                    Demo.stream None (mkStoreResponse Demo.gitoid)
                    (demo_writesEnvelope Demo.rekorUp Demo.conn
                                         "https://rekor" "archivist:8080")
                    ltac:(discriminate) eq_refl eq_refl eq_refl eq_refl
                    ltac:(discriminate) ltac:(vm_compute; discriminate)
                    eq_refl eq_refl (fun _ _ => eq_refl) eq_refl)).
  reflexivity.
Defined.

(** X14. Failures of the transparency-log step before the submission.
    After a successful local write with the endpoint configured: when the
    signer gives no verifier, or the verifier no bytes, the run fails
    with that error wrapped ("failed to get verifier from signer",
    "failed to get bytes from verifier") without any network call; when
    the client cannot be made the run fails with "failed to get
    initialize Rekor client" wrapped around the error and nothing is
    submitted.  In all three the artifact store is not dialed. *)
Theorem log_step_fails_before_submission w ro args signer signedBytes :
  writesEnvelope w ro args signer signedBytes ->
  RekorServer ro <> EmptyString ->
  (forall e,
     GetVerifier signer = Failure e ->
     runRun w ro args initial
     = (Err (wrapError "failed to get verifier from signer" e),
        mkState (callsToWrite ro args signer signedBytes ++ [EvClose])
                signedBytes []))
  /\ (forall verifier e,
        GetVerifier signer = Success verifier ->
        Bytes verifier = Failure e ->
        runRun w ro args initial
        = (Err (wrapError "failed to get bytes from verifier" e),
           mkState (callsToWrite ro args signer signedBytes ++ [EvClose])
                   signedBytes []))
  /\ (forall verifier pubKeyBytes e,
        GetVerifier signer = Success verifier ->
        Bytes verifier = Success pubKeyBytes ->
        rekorNew w (RekorServer ro) = Failure e ->
        runRun w ro args initial
        = (Err (wrapError "failed to get initialize Rekor client" e),
           mkState (callsToWrite ro args signer signedBytes
                    ++ [EvRekorNew (RekorServer ro); EvClose])
                   signedBytes [])).
Proof.
  intros Hw Hon. rewrite (runRun_written _ _ _ _ _ Hw). cbv zeta.
  unfold bind at 1 3 5. unfold publishRekor.
  destruct (String.eqb_spec (RekorServer ro) ""); [congruence|].
  cbn [negb]. unfold bind, emit, record.
  split; [|split].
  - intros e Hv. rewrite Hv. reflexivity.
  - intros verifier e Hv Hb. rewrite Hv. cbn [check ret fail].
    rewrite Hb. reflexivity.
  - intros verifier pubKeyBytes e Hv Hb Hn. rewrite Hv. cbn [check ret fail].
    rewrite Hb. cbn [check ret fail trace sink sent].
    rewrite Hn. cbn [check ret fail fst snd trace sink sent].
    now rewrite <- !app_assoc.
Qed.

(** X15. A failed upload fails the run with the upload's error wrapped
    as "failed to store artifact in archivist", so that the message of
    the returned error is that text, a colon and the message of the
    cause; the sink keeps the envelope. *)
Theorem upload_failure_is_wrapped w ro args signer signedBytes e :
  writesEnvelope w ro args signer signedBytes ->
  rekorFails w ro signer signedBytes = false ->
  Server (ro_ArchivistOptions ro) <> EmptyString ->
  fst (storeInArchivist w (ro_ArchivistOptions ro) signedBytes initial)
  = Err e ->
  fst (runRun w ro args initial)
  = Err (wrapError "failed to store artifact in archivist" e)
  /\ (forall err,
        fst (runRun w ro args initial) = Err err ->
        Error err = "failed to store artifact in archivist: " +++ Error e)
  /\ sink (snd (runRun w ro args initial)) = signedBytes.
Proof.
  intros Hw Hf Hon He.
  assert (E : fst (runRun w ro args initial)
              = Err (wrapError "failed to store artifact in archivist" e)).
  { rewrite (runRun_written _ _ _ _ _ Hw). cbv zeta. cbn [fst].
    unfold bind.
    match goal with
    | |- context [publishRekor w ro signer signedBytes ?st] =>
        destruct (publishRekor_cases w ro signer signedBytes st)
          as (t & _ & Hst & Hres);
        destruct (publishRekor w ro signer signedBytes st) as [r st2]
    end.
    cbn [fst snd] in *. subst st2. rewrite Hf in Hres. subst r.
    cbv beta iota.
    erewrite publishArchivist_failed;
      [reflexivity | exact Hon | reflexivity | exact He]. }
  split; [exact E|]. split.
  - intros err Herr. rewrite E in Herr. injection Herr as <-. reflexivity.
  - rewrite (runRun_written _ _ _ _ _ Hw). cbv zeta. cbn [snd].
    unfold record. cbn [sink]. now rewrite published_sink.
Qed.

Lemma upload_failure_is_wrapped_witness :
  fst (runRun (Demo.world Demo.rekorUp Demo.deafConn) Demo.storing
              Demo.command initial)
  = Err (wrapError "failed to store artifact in archivist"
                   (errorString "EOF")).
Proof.
  exact (proj1 (upload_failure_is_wrapped
                  (Demo.world Demo.rekorUp Demo.deafConn) Demo.storing
                  Demo.command Demo.signerA Demo.hello (errorString "EOF")
                  (demo_writesEnvelope Demo.rekorUp Demo.deafConn ""
                                       "archivist:8080")
                  eq_refl ltac:(discriminate) eq_refl)).
Defined.

(** X16. What a run reads of its options: the key options, the working
    directory, the attestors, the output path, the step name, the
    tracing flag, [RekorServer] and the [Server] of the artifact-store
    options.  Run options that agree on these give the same run; the
    timestamp servers, like [Enable] and [Url], have no part in it. *)
Theorem options_read_by_run w ro ro' args st :
  ro_KeyOptions ro = ro_KeyOptions ro' ->
  Server (ro_ArchivistOptions ro) = Server (ro_ArchivistOptions ro') ->
  WorkingDir ro = WorkingDir ro' ->
  Attestations ro = Attestations ro' ->
  OutFilePath ro = OutFilePath ro' ->
  StepName ro = StepName ro' ->
  Tracing ro = Tracing ro' ->
  RekorServer ro = RekorServer ro' ->
  runRun w ro args st = runRun w ro' args st.
Proof.
  destruct ro as [ko [en url srv] wd att out step tr ts rk].
  destruct ro' as [ko' [en' url' srv'] wd' att' out' step' tr' ts' rk'].
  cbn [ro_KeyOptions ro_ArchivistOptions Server WorkingDir Attestations
       OutFilePath StepName Tracing RekorServer].
  intros -> -> -> -> -> -> -> ->. reflexivity.
Qed.

Lemma options_read_by_run_witness :
  runRun Demo.healthy
         (mkRunOptions Demo.oneLoads
                       (mkArchivistOptions true "" "archivist:8080")
                       "" ["environment"%string; "git"%string] "" "build"
                       false ["https://tsa.example"%string] "https://rekor")
         Demo.command initial
  = runRun Demo.healthy Demo.publishing Demo.command initial.
Proof.
  exact (options_read_by_run
           Demo.healthy
           (mkRunOptions Demo.oneLoads
                         (mkArchivistOptions true "" "archivist:8080")
                         "" ["environment"%string; "git"%string] "" "build"
                         false ["https://tsa.example"%string] "https://rekor")
           Demo.publishing Demo.command initial
           eq_refl eq_refl eq_refl eq_refl eq_refl eq_refl eq_refl eq_refl).
Defined.

Lemma log_step_fails_before_submission_witness :
  runRun Demo.keyless Demo.publishing Demo.command initial
  = (Err (wrapError "failed to get verifier from signer"
                    (errorString "no public key")),
     mkState (callsToWrite Demo.publishing Demo.command Demo.signerC
                           Demo.hello ++ [EvClose])
             Demo.hello []).
Proof.
  refine (proj1 (log_step_fails_before_submission
                   Demo.keyless Demo.publishing Demo.command Demo.signerC
                   Demo.hello _ ltac:(discriminate))
                (errorString "no public key") eq_refl).
  exists Demo.file, (mkRunResult Demo.envelope). repeat split; reflexivity.
Defined.

Lemma sendChunks_nil_state (signedBytes : list byte) fuel st :
  signedBytes <> [] ->
  sendChunks (S fuel) None signedBytes (len signedBytes) 0 st
  = (Panic nilDeref, st).
Proof.
  intros Hne. cbn [sendChunks].
  assert (0 < len signedBytes).
  { destruct signedBytes; [congruence|]. rewrite len_cons.
    pose proof (len_nonneg signedBytes). lia. }
  destruct (Z.ltb_spec 0 (len signedBytes)); [|lia].
  change (intAdd 0 chunkSize) with 65536.
  unfold bind.
  destruct (Z.geb_spec 65536 (len signedBytes)).
  - rewrite sliceFrom_ok by lia. reflexivity.
  - rewrite slice_ok by lia. reflexivity.
Qed.

Lemma storeInArchivist_nil_stream w opts signedBytes st conn :
  grpcDial w (Server opts) = Success conn ->
  fst (Store conn) = None ->
  storeInArchivist w opts signedBytes st
  = (Panic nilDeref,
     mkState (trace st ++ [EvDial (Server opts); EvStore]) (sink st) []).
Proof.
  intros Hd Hnil. rewrite (storeInArchivist_dialed _ _ _ _ _ Hd), Hnil.
  unfold bind at 1. destruct signedBytes as [|b bs].
  - cbn [List.length]. rewrite sendChunks_stop by reflexivity. reflexivity.
  - rewrite sendChunks_nil_state by discriminate. reflexivity.
Qed.

(** X17. When [Store] returns no stream the unchecked open error turns
    into a panic of the run: after a successful local write, with the
    transparency log not configured and the artifact store dialed, the
    run panics on the nil stream; the deferred [Close] still runs, as the
    last call, and the sink keeps the envelope. *)
Theorem nil_stream_panics_run w ro args signer signedBytes conn :
  writesEnvelope w ro args signer signedBytes ->
  RekorServer ro = EmptyString ->
  Server (ro_ArchivistOptions ro) <> EmptyString ->
  grpcDial w (Server (ro_ArchivistOptions ro)) = Success conn ->
  fst (Store conn) = None ->
  runRun w ro args initial
  = (Panic nilDeref,
     mkState (callsToWrite ro args signer signedBytes
              ++ [EvDial (Server (ro_ArchivistOptions ro)); EvStore; EvClose])
             signedBytes []).
Proof.
  intros Hw Hoff Hon Hd Hnil.
  rewrite (runRun_written _ _ _ _ _ Hw). cbv zeta. unfold bind.
  rewrite publishRekor_off by exact Hoff.
  unfold publishArchivist.
  destruct (String.eqb_spec (Server (ro_ArchivistOptions ro)) "");
    [congruence|].
  cbn [negb]. unfold bind, mapErr.
  rewrite (storeInArchivist_nil_stream _ _ _ _ _ Hd Hnil).
  unfold record. cbn [fst snd trace sink sent].
  now rewrite <- !app_assoc.
Qed.

Lemma nil_stream_panics_run_witness :
  runRun Demo.noSession Demo.storing Demo.command initial
  = (Panic nilDeref,
     mkState (callsToWrite Demo.storing Demo.command Demo.signerA Demo.hello
              ++ [EvDial "archivist:8080"; EvStore; EvClose])
             Demo.hello []).
Proof.
  exact (nil_stream_panics_run
           Demo.noSession Demo.storing Demo.command Demo.signerA Demo.hello
           Demo.noStream
           (demo_writesEnvelope Demo.rekorUp Demo.noStream ""
                                "archivist:8080")
           eq_refl ltac:(discriminate) eq_refl eq_refl).
Defined.

(** ** The flags of the run command *)

Lemma AddFlag_app kfs l f :
  hasName l (Name f) = false ->
  (if String.eqb (Shorthand f) "" then true
   else negb (hasShorthand l (Shorthand f))) = true ->
  AddFlag (kfs ++ l) f
  = if hasName kfs (Name f) then None
    else if String.eqb (Shorthand f) "" then Some (kfs ++ l ++ [f])
    else if (1 <? String.length (Shorthand f))%nat then None
    else if hasShorthand kfs (Shorthand f) then None
    else Some (kfs ++ l ++ [f]).
Proof.
  intros Hn Hs. unfold AddFlag, hasName, hasShorthand in *.
  rewrite !existsb_app, Hn, <- app_assoc. cbn [orb].
  rewrite orb_false_r.
  destruct (String.eqb (Shorthand f) ""); [reflexivity|].
  apply negb_true_iff in Hs. rewrite Hs, orb_false_r. reflexivity.
Qed.

Lemma clashFree_spec kfs :
  clashFree kfs = true <->
  (hasName kfs "enable-archivist" = false
   /\ hasName kfs "archivist-server" = false
   /\ hasName kfs "workingdir" = false
   /\ hasName kfs "attestations" = false
   /\ hasName kfs "outfile" = false
   /\ hasName kfs "step" = false
   /\ hasName kfs "trace" = false
   /\ hasName kfs "timestamp-servers" = false)
  /\ (hasShorthand kfs "d" = false
      /\ hasShorthand kfs "a" = false
      /\ hasShorthand kfs "o" = false
      /\ hasShorthand kfs "s" = false).
Proof.
  unfold clashFree, runFlagNames, runFlagShorthands. cbn [forallb].
  rewrite !andb_true_iff, !negb_true_iff. tauto.
Qed.

(** X18. Registering the flags of the run command.  Starting from the
    flags that [KeyOptions.AddFlags] has registered on the new command,
    [RunCmd] registers its eight flags, in the order of the source,
    exactly when none of their names and none of the shorthands d, a, o,
    s is taken already; otherwise the registration panics.  When it
    succeeds the options hold the defaults: attestations environment and
    git, the archivist URL, everything else empty or false. *)
Theorem run_flags_register keyAddFlags ko kfs :
  keyAddFlags [] [] = Some (ko, kfs) ->
  (clashFree kfs = true ->
   exists cmd,
     RunCmd keyAddFlags
     = Some (cmd,
             mkRunOptions ko
               (mkArchivistOptions false "https://archivist.testifysec.io" "")
               "" ["environment"%string; "git"%string] "" "" false [] "")
     /\ map Name (Flags cmd) = map Name kfs ++ runFlagNames
     /\ SilenceErrors cmd = true /\ SilenceUsage cmd = true)
  /\ (clashFree kfs = false -> RunCmd keyAddFlags = None).
Proof.
  intros Hkey.
  assert (E : RunCmd keyAddFlags
              = if clashFree kfs
                then RunCmd keyAddFlags
                else None).
  2:{ split.
      - intros Hfree. apply clashFree_spec in Hfree.
        destruct Hfree as ((N1 & N2 & N3 & N4 & N5 & N6 & N7 & N8)
                           & (S1 & S2 & S3 & S4)).
        unfold RunCmd, RunOptions_AddFlags, ArchivistOptions_AddFlags.
        cbn [ro_KeyOptions ro_ArchivistOptions RekorServer Server].
        rewrite Hkey.
        replace (AddFlag kfs) with (AddFlag (kfs ++ []))
          by now rewrite app_nil_r.
        repeat (rewrite AddFlag_app by reflexivity;
                cbn [Name Shorthand];
                rewrite ?N1, ?N2, ?N3, ?N4, ?N5, ?N6, ?N7, ?N8,
                        ?S1, ?S2, ?S3, ?S4;
                cbn [String.eqb Ascii.eqb Bool.eqb String.length Nat.ltb
                     Nat.leb app]).
        eexists. split; [reflexivity|].
        cbn [Flags SilenceErrors SilenceUsage]. rewrite map_app.
        repeat split.
      - intros Hclash. rewrite E, Hclash. reflexivity. }
  destruct (clashFree kfs) eqn:Hfree; [reflexivity|].
  unfold RunCmd, RunOptions_AddFlags, ArchivistOptions_AddFlags.
  cbn [ro_KeyOptions ro_ArchivistOptions RekorServer Server].
  rewrite Hkey.
  replace (AddFlag kfs) with (AddFlag (kfs ++ []))
    by now rewrite app_nil_r.
  assert (Hno : ~ (clashFree kfs = true)) by congruence.
  rewrite clashFree_spec in Hno.
  repeat (rewrite AddFlag_app by reflexivity;
          cbn [Name Shorthand];
          match goal with
          | |- context [if hasName kfs ?n then _ else _] =>
              destruct (hasName kfs n) eqn:?; [reflexivity|]
          end;
          cbn [String.eqb Ascii.eqb Bool.eqb String.length Nat.ltb
               Nat.leb app];
          try match goal with
          | |- context [if hasShorthand kfs ?c then _ else _] =>
              destruct (hasShorthand kfs c) eqn:?; [reflexivity|]
          end).
  exfalso. apply Hno. repeat split; assumption.
Qed.

Lemma run_flags_register_witness :
  (exists cmd,
     RunCmd Demo.keyFlags
     = Some (cmd,
             mkRunOptions []
               (mkArchivistOptions false "https://archivist.testifysec.io" "")
               "" ["environment"%string; "git"%string] "" "" false [] "")
     /\ map Name (Flags cmd)
        = map Name [mkFlag "key" "k" (StringValue "")
                           "Path to the signing key"]
          ++ runFlagNames
     /\ SilenceErrors cmd = true /\ SilenceUsage cmd = true)
  /\ RunCmd Demo.clashingKeyFlags = None.
Proof.
  split.
  - exact (proj1 (run_flags_register Demo.keyFlags [] _ eq_refl) eq_refl).
  - exact (proj2 (run_flags_register Demo.clashingKeyFlags [] _ eq_refl)
                 eq_refl).
Defined.

(** X19. Every upload and every run comes to an end: the loop of
    [storeInArchivist] is left after at most one evaluation of its
    condition per byte and one more, whatever the payload, the stream
    and the world, also where [curr + chunkSize] would wrap. *)
Theorem every_run_ends w ro args st :
  fst (runRun w ro args st) <> OutOfFuel
  /\ (forall opts signedBytes,
        fst (storeInArchivist w opts signedBytes st) <> OutOfFuel).
Proof.
  split; [apply runRun_total | intros; apply storeInArchivist_total].
Qed.
